(** * The state saver of [async_state_saver.py]

    A shallow embedding of [SimpleStateSaver] (the recorder) and of the
    [save_state] decorator (the instrumentation), with the properties of
    the snapshot recorder stated and proved over it. *)

From Stdlib Require Import ZArith List Ascii String Floats Lia.
From stdpp Require Import base option list gmap strings pretty.

Open Scope Z_scope.

(** ** Python values *)

(** Keys of a [dict].  Only the text [str(k)] of a key that is not [None],
    a [bool], an [int] or a [str] matters to the saver: [KObj] carries it. *)
Inductive key : Type :=
| KNone
| KBool (b : bool)
| KInt (n : Z)
| KStr (s : string)
| KObj (repr : string).

(** Values as the saver tells them apart with [isinstance].  [VObj] is any
    object that is none of the others (a set, a [datetime], a page handle,
    an instance of a user class); it carries the text [str(obj)] returns. *)
#[local] Unset Elimination Schemes.
Inductive value : Type :=
| VNone
| VBool (b : bool)
| VInt (n : Z)
| VFloat (x : float)
| VStr (s : string)
| VList (items : list value)
| VTuple (items : list value)
| VDict (entries : list (key * value))
| VObj (repr : string).
#[local] Set Elimination Schemes.

#[global] Instance key_eq_dec : EqDecision key.
Proof. solve_decision. Defined.

(** Induction over values, with the elements of a list, a tuple and a
    dictionary as induction hypotheses. *)
Section ValueInduction.
Variable P : value -> Prop.
Hypothesis HNone : P VNone.
Hypothesis HBool : forall b, P (VBool b).
Hypothesis HInt : forall n, P (VInt n).
Hypothesis HFloat : forall x, P (VFloat x).
Hypothesis HStr : forall s, P (VStr s).
Hypothesis HList : forall items, Forall P items -> P (VList items).
Hypothesis HTuple : forall items, Forall P items -> P (VTuple items).
Hypothesis HDict :
  forall entries, Forall (fun e => P (snd e)) entries -> P (VDict entries).
Hypothesis HObj : forall repr, P (VObj repr).

Fixpoint value_ind (v : value) : P v :=
  let fix items_ind (l : list value) : Forall P l :=
    match l with
    | [] => @List.Forall_nil _ P
    | x :: l' => @List.Forall_cons _ P x l' (value_ind x) (items_ind l')
    end in
  let fix entries_ind (l : list (key * value)) : Forall (fun e => P (snd e)) l :=
    match l with
    | [] => @List.Forall_nil _ (fun e => P (snd e))
    | e :: l' => @List.Forall_cons _ (fun e => P (snd e)) e l' (value_ind (snd e)) (entries_ind l')
    end in
  match v with
  | VNone => HNone
  | VBool b => HBool b
  | VInt n => HInt n
  | VFloat x => HFloat x
  | VStr s => HStr s
  | VList items => HList items (items_ind items)
  | VTuple items => HTuple items (items_ind items)
  | VDict entries => HDict entries (entries_ind entries)
  | VObj repr => HObj repr
  end.
End ValueInduction.

(** [str(k)] for a key. *)
Definition py_str_bool (b : bool) : string := if b then "True" else "False".

Definition py_str_key (k : key) : string :=
  match k with
  | KNone => "None"
  | KBool b => py_str_bool b
  | KInt n => pretty n
  | KStr s => s
  | KObj repr => repr
  end.

(** ** Dictionaries: insertion-ordered association lists *)

Section Dict.
Context {V : Type}.

(** Does the stored key [k'] equal the string [k]? *)
Definition key_is (k : string) (k' : key) : bool :=
  match k' with
  | KStr s => bool_decide (s = k)
  | _ => false
  end.

(** [d[k] = v] for a string [k]: an entry with that key keeps its place
    and takes the new value, otherwise the entry goes to the end. *)
Fixpoint dict_setitem (d : list (key * V)) (k : string) (v : V) : list (key * V) :=
  match d with
  | [] => [(KStr k, v)]
  | (k', v') :: d' =>
      if key_is k k' then (k', v) :: d' else (k', v') :: dict_setitem d' k v
  end.

(** [d.get(k)] for a string [k]. *)
Fixpoint dict_get (d : list (key * V)) (k : string) : option V :=
  match d with
  | [] => None
  | (k', v') :: d' => if key_is k k' then Some v' else dict_get d' k
  end.

End Dict.

(** ** [SimpleStateSaver._clean_for_json] *)

Fixpoint _clean_for_json (obj : value) : value :=
  match obj with
  (* obj is None or isinstance(obj, (str, int, float, bool)) *)
  | VNone | VBool _ | VInt _ | VFloat _ | VStr _ => obj
  (* isinstance(obj, (list, tuple)): a list comprehension *)
  | VList items | VTuple items => VList (map _clean_for_json items)
  (* isinstance(obj, dict): a dict comprehension over obj.items() *)
  | VDict entries =>
      VDict (fold_left
               (fun acc e => dict_setitem acc (py_str_key (fst e)) (_clean_for_json (snd e)))
               entries [])
  (* anything else *)
  | VObj repr => VStr repr
  end.

(** What [json.dump] writes without a fallback: [None], numbers, strings,
    lists, and dictionaries whose keys are strings. *)
Definition is_str_key (k : key) : bool :=
  match k with KStr _ => true | _ => false end.

Fixpoint json_ready (v : value) : bool :=
  match v with
  | VNone | VBool _ | VInt _ | VFloat _ | VStr _ => true
  | VList items => forallb json_ready items
  | VDict entries =>
      forallb (fun e => is_str_key (fst e) && json_ready (snd e)) entries
  | VTuple _ | VObj _ => false
  end.

(** ** The coercion as the specification words it

    Over the closed set of variants: null, boolean, number and string are
    returned as they are; a sequence is coerced element by element; a
    mapping is coerced entry by entry, each key replaced by its text; any
    other value becomes its text. *)



(** The structures the specification calls plain: primitives, sequences and
    keyed mappings, whatever the keys. *)
Fixpoint plain_structure (v : value) : bool :=
  match v with
  | VNone | VBool _ | VInt _ | VFloat _ | VStr _ => true
  | VList items | VTuple items => forallb plain_structure items
  | VDict entries =>
      bool_decide (NoDup (map fst entries))
      && forallb (fun e => plain_structure (snd e)) entries
  | VObj _ => false
  end.

(** The structures the coercion leaves alone: primitives, lists, and
    dictionaries keyed by (pairwise different) strings. *)
Fixpoint plain_json (v : value) : bool :=
  match v with
  | VNone | VBool _ | VInt _ | VFloat _ | VStr _ => true
  | VList items => forallb plain_json items
  | VDict entries =>
      bool_decide (NoDup (map fst entries))
      && forallb (fun e => is_str_key (fst e) && plain_json (snd e)) entries
  | VTuple _ | VObj _ => false
  end.

(** ** Exceptions, and computations that may raise *)

(** An instance of [Exception]: its class and the text [str(e)] returns. *)
Record exn : Type := Exn { exn_type : string; exn_msg : string }.

Inductive result (A : Type) : Type :=
| Ok (a : A)
| Raise (e : exn).
Arguments Ok {A} a.
Arguments Raise {A} e.

(** A computation over a state [S]: the state it leaves, and what it
    returns or raises.  What was done before a [raise] stays done. *)
Definition M (S A : Type) : Type := S -> S * result A.

Definition ret {S A} (a : A) : M S A := fun s => (s, Ok a).
Definition raise {S A} (e : exn) : M S A := fun s => (s, Raise e).
Definition bind {S A B} (m : M S A) (k : A -> M S B) : M S B :=
  fun s => match m s with
           | (s', Ok a) => k a s'
           | (s', Raise e) => (s', Raise e)
           end.
Definition get {S} : M S S := fun s => (s, Ok s).
Definition modify {S} (f : S -> S) : M S unit := fun s => (f s, Ok tt).

(** [try: body except Exception as e: handler e]. *)
Definition try_except {S A} (body : M S A) (handler : exn -> M S A) : M S A :=
  fun s => match body s with
           | (s', Ok a) => (s', Ok a)
           | (s', Raise e) => handler e s'
           end.

(** Run a computation on a component of the state. *)
Definition zoom {S T A} (proj : S -> T) (upd : T -> S -> S) (m : M T A) : M S A :=
  fun s => let (t', r) := m (proj s) in (upd t' s, r).

Declare Scope py_scope.
Delimit Scope py_scope with py.
Notation "x <- m ;; k" := (bind m (fun x => k))
  (at level 100, m at next level, right associativity) : py_scope.
Notation "m ;;; k" := (bind m (fun _ => k))
  (at level 100, right associativity) : py_scope.

(** ** Formatting and paths *)

Fixpoint zeros (n : nat) : string :=
  match n with
  | O => ""
  | S n' => String "0" (zeros n')
  end.

(** Left padding with zeros up to the width [w]; longer texts are kept. *)
Definition zfill (w : nat) (s : string) : string :=
  zeros (w - String.length s) +:+ s.

(** [f"{n:03d}"]: the sign, then the digits padded with zeros so that the
    whole has at least three characters. *)
Definition format_03d (n : Z) : string :=
  match n with
  | Zneg p => "-" +:+ zfill 2 (pretty (Zpos p))
  | _ => zfill 3 (pretty n)
  end.

Definition ends_with_slash (s : string) : bool :=
  match rev (list_ascii_of_string s) with
  | c :: _ => bool_decide (c = "/"%char)
  | [] => false
  end.

Definition starts_with_slash (s : string) : bool :=
  match s with
  | String c _ => bool_decide (c = "/"%char)
  | EmptyString => false
  end.

(** [os.path.join(a, b)] on a POSIX system. *)
Definition os_path_join (a b : string) : string :=
  if starts_with_slash b then b
  else if bool_decide (a = "") || ends_with_slash a then a +:+ b
  else a +:+ "/" +:+ b.

(** The name of a snapshot file, as [save_sync] builds it. *)
Definition snapshot_filename (n : Z) (node_name timestamp : string) : string :=
  format_03d n +:+ "_" +:+ node_name +:+ "_" +:+ timestamp +:+ ".json".

(** [a < b] on strings: by code point, the shorter first among prefixes. *)
Definition str_lt (a b : string) : bool := String.ltb a b.

(** ** The operating system as the saver sees it *)

(** A file is either written in full with [json.dump], or left cut short
    by a write that raised after [open] had created it. *)
Inductive file : Type :=
| Complete (data : value)
| Truncated.

Record os : Type := mkOs {
  dirs : list string;
  disk : gmap string file;
  stdout : list string
}.

Definition print (line : string) : M os unit :=
  modify (fun o => mkOs (dirs o) (disk o) (stdout o ++ [line])).

(** What the file system does to one write. *)
Inductive io_fault : Type :=
| NoFault
| OpenFails (e : exn)
| DumpFails (e : exn).

(** [with open(filepath, 'w') as f: json.dump(data, f, indent=2)]. *)
Definition open_and_dump (ft : io_fault) (filepath : string) (data : value) : M os unit :=
  match ft with
  | NoFault =>
      modify (fun o => mkOs (dirs o) (<[filepath := Complete data]> (disk o)) (stdout o))
  | OpenFails e => raise e
  | DumpFails e =>
      (modify (fun o => mkOs (dirs o) (<[filepath := Truncated]> (disk o)) (stdout o)) ;;;
       raise e)%py
  end.

(** [os.makedirs(path, exist_ok=True)]. *)
Definition makedirs (ft : option exn) (path : string) : M os unit :=
  match ft with
  | Some e => raise e
  | None => modify (fun o => mkOs (path :: dirs o) (disk o) (stdout o))
  end.

(** ** The recorder: [SimpleStateSaver] *)

(** Objects live in a heap and are passed by reference. *)
Definition loc : Type := nat.

(** The object a reference names.  Every reference handed to the saver
    names a live object; [VNone] stands in for the others. *)
Definition deref (h : gmap loc value) (l : loc) : value :=
  default VNone (h !! l).

(** A pending call [self.save_sync(state, node_name)]. *)
Record job : Type := Job { job_state : loc; job_node : string }.

(** [ThreadPoolExecutor(max_workers=1)]: the queue of its work items, in
    the order of submission, and whether it was shut down. *)
Record ThreadPoolExecutor : Type := mkExecutor {
  work_queue : list job;
  shut_down : bool
}.

Record SimpleStateSaver : Type := mkSaver {
  workflow_name : string;
  base_dir : string;
  run_id : string;
  counter : Z;
  _executor : ThreadPoolExecutor;
  run_dir : string
}.

Definition set_counter (n : Z) (self : SimpleStateSaver) : SimpleStateSaver :=
  mkSaver (workflow_name self) (base_dir self) (run_id self) n
          (_executor self) (run_dir self).

Definition set_executor (ex : ThreadPoolExecutor) (self : SimpleStateSaver)
  : SimpleStateSaver :=
  mkSaver (workflow_name self) (base_dir self) (run_id self) (counter self)
          ex (run_dir self).

(** What [__init__] reads from its surroundings: [datetime.now()] in the
    format [%Y%m%d_%H%M%S], [str(uuid.uuid4())], and whether a
    directory can be made. *)
Record init_env : Type := mkInitEnv {
  now_stamp : string;
  uuid4 : string;
  mkdir_fault : string -> option exn
}.

Definition __init__ (ie : init_env) (workflow_name base_dir : string)
  : M os SimpleStateSaver :=
  (let run_id := now_stamp ie +:+ "_" +:+ substring 0 8 (uuid4 ie) in
   makedirs (mkdir_fault ie base_dir) base_dir ;;;
   let run_dir := os_path_join base_dir (workflow_name +:+ "_" +:+ run_id) in
   makedirs (mkdir_fault ie run_dir) run_dir ;;;
   print ("[StateSaver] Saving states to: " +:+ run_dir) ;;;
   ret (mkSaver workflow_name base_dir run_id 0 (mkExecutor [] false) run_dir))%py.

(** What one call of [save_sync] reads from its surroundings: the clock,
    as [%H%M%S] and in ISO format, and what the file system does. *)
Record env : Type := mkEnv {
  now_hms : string;
  now_iso : string;
  fault : io_fault
}.

(** The envelope written to the file. *)
Definition envelope (self : SimpleStateSaver) (ev : env) (node_name : string)
    (clean_state : value) : value :=
  VDict [ (KStr "metadata",
           VDict [ (KStr "node", VStr node_name);
                   (KStr "order", VInt (counter self));
                   (KStr "time", VStr (now_iso ev));
                   (KStr "workflow", VStr (workflow_name self));
                   (KStr "run_id", VStr (run_id self)) ]);
          (KStr "state", clean_state) ].

Definition on_self {A} (m : M SimpleStateSaver A) : M (SimpleStateSaver * os) A :=
  zoom fst (fun t s => (t, snd s)) m.
Definition on_os {A} (m : M os A) : M (SimpleStateSaver * os) A :=
  zoom snd (fun t s => (fst s, t)) m.

(** [save_sync]: the whole body runs holding [self._lock], so it is one
    step of whichever thread runs it. *)
Definition save_sync (ev : env) (state : value) (node_name : string)
  : M (SimpleStateSaver * os) string :=
  (on_self (modify (fun self => set_counter (counter self + 1) self)) ;;;
   self <- on_self get ;;
   let timestamp := now_hms ev in
   let filename := snapshot_filename (counter self) node_name timestamp in
   let filepath := os_path_join (run_dir self) filename in
   try_except
     (let clean_state := _clean_for_json state in
      let data := envelope self ev node_name clean_state in
      on_os (open_and_dump (fault ev) filepath data) ;;;
      on_os (print ("[StateSaver] Saved: " +:+ filename)) ;;;
      ret filepath)
     (fun e =>
        on_os (print ("[StateSaver] Error saving " +:+ node_name +:+ ": "
                      +:+ exn_msg e)) ;;;
        ret ""))%py.

(** [ThreadPoolExecutor.submit]. *)
Definition submit (j : job) : M ThreadPoolExecutor unit :=
  fun ex =>
    if shut_down ex
    then (ex, Raise (Exn "RuntimeError" "cannot schedule new futures after shutdown"))
    else (mkExecutor (work_queue ex ++ [j]) (shut_down ex), Ok tt).

(** [save_background]: runs on the thread of the caller. *)
Definition save_background (state : loc) (node_name : string)
  : M SimpleStateSaver unit :=
  zoom _executor set_executor (submit (Job state node_name)).

(** One turn of the single worker thread: it takes the oldest work item
    and runs it; the future keeps what the call returned or raised.  With
    nothing queued the worker waits. *)
Definition worker_step (h : gmap loc value) (ev : env)
  : SimpleStateSaver * os -> (SimpleStateSaver * os) * option (job * result string) :=
  fun s =>
    match work_queue (_executor (fst s)) with
    | [] => (s, None)
    | j :: rest =>
        let self := set_executor (mkExecutor rest (shut_down (_executor (fst s)))) (fst s) in
        let (s', r) := save_sync ev (deref h (job_state j)) (job_node j) (self, snd s) in
        (s', Some (j, r))
    end.

(** ** Runs of the recorder

    The calling thread submits jobs ([save_background]) or calls
    [save_sync] itself; the worker thread takes its turns in between, at
    any time.  A schedule lists what happens, in the order it happens. *)
Inductive event : Type :=
| Submit (state : loc) (node_name : string)
| Work (ev : env)
| Direct (state : loc) (node_name : string) (ev : env).

(** One execution of [save_sync]: the job it ran for (none for a direct
    call), the node it was given, the counter it left, which is the
    [order] of its envelope, and what it returned. *)
Record execution : Type := mkExecution {
  exec_job : option job;
  exec_node : string;
  exec_order : Z;
  exec_result : result string
}.

Definition step (h : gmap loc value) (e : event) (s : SimpleStateSaver * os)
  : (SimpleStateSaver * os) * option execution :=
  match e with
  | Submit state node_name =>
      let (self', _) := save_background state node_name (fst s) in
      ((self', snd s), None)
  | Work ev =>
      match worker_step h ev s with
      | (s', Some (j, r)) =>
          (s', Some (mkExecution (Some j) (job_node j) (counter (fst s')) r))
      | (s', None) => (s', None)
      end
  | Direct state node_name ev =>
      let (s', r) := save_sync ev (deref h state) node_name s in
      (s', Some (mkExecution None node_name (counter (fst s')) r))
  end.

Fixpoint run (h : gmap loc value) (sched : list event) (s : SimpleStateSaver * os)
  : (SimpleStateSaver * os) * list execution :=
  match sched with
  | [] => (s, [])
  | e :: sched' =>
      let (s1, x) := step h e s in
      let (s2, xs) := run h sched' s1 in
      (s2, match x with Some x => x :: xs | None => xs end)
  end.

(** The jobs a schedule submits, in the order of submission. *)
Definition submitted (sched : list event) : list job :=
  omap (fun e => match e with
                 | Submit state node_name => Some (Job state node_name)
                 | _ => None
                 end) sched.

(** ** The instrumentation: [save_state] *)

(** The process: the heap of objects, the operating system, and the
    module's global [_saver]. *)
Record world : Type := mkWorld {
  heap : gmap loc value;
  the_os : os;
  _saver : option SimpleStateSaver
}.

Definition on_heap {A} (m : M (gmap loc value) A) : M world A :=
  zoom heap (fun h w => mkWorld h (the_os w) (_saver w)) m.

(** A node function: its [__name__], and what a call does to the heap
    and returns or raises. *)
Record node_function : Type := mkNode {
  __name__ : string;
  call : loc -> M (gmap loc value) loc
}.

(** A new object. *)
Definition alloc (v : value) : M (gmap loc value) loc :=
  fun h => let l := fresh (dom h) in (<[l := v]> h, Ok l).

(** [d[k] = v] on the object [d] names. *)
Definition setitem (d : loc) (k : string) (v : value) : M (gmap loc value) unit :=
  fun h =>
    match h !! d with
    | Some (VDict entries) => (<[d := VDict (dict_setitem entries k v)]> h, Ok tt)
    | _ => (h, Raise (Exn "TypeError" "object does not support item assignment"))
    end.

(** [init_state_saver]. *)
Definition init_state_saver (ie : init_env) (workflow_name base_dir : string)
  : M world SimpleStateSaver :=
  fun w =>
    match __init__ ie workflow_name base_dir (the_os w) with
    | (o, Ok self) => (mkWorld (heap w) o (Some self), Ok self)
    | (o, Raise e) => (mkWorld (heap w) o (_saver w), Raise e)
    end.

(** [if _saver: body]. *)
Definition if_saver (body : M world unit) : M world unit :=
  fun w => match _saver w with
           | Some _ => body w
           | None => (w, Ok tt)
           end.

(** [_saver.save_background(state, node_name)]. *)
Definition _saver_save_background (state : loc) (node_name : string) : M world unit :=
  fun w =>
    match _saver w with
    | Some self =>
        let (self', r) := save_background state node_name self in
        (mkWorld (heap w) (the_os w) (Some self'), r)
    | None =>
        (w, Raise (Exn "AttributeError"
                       "'NoneType' object has no attribute 'save_background'"))
    end.

(** [dict(state) if isinstance(state, dict) else {"original_state": state}]:
    in both cases a new dictionary.  The entries of the copy are those of
    [state]; the heap holds objects with their contents, so that what is
    shared below the top level is not told apart from a copy. *)
Definition new_error_state (state : loc) : M (gmap loc value) loc :=
  fun h =>
    match deref h state with
    | VDict entries => alloc (VDict entries) h
    | obj => alloc (VDict [(KStr "original_state", obj)]) h
    end.

(** [node_name or func.__name__]. *)
Definition py_or (node_name : option string) (name : string) : string :=
  match node_name with
  | Some (String c s) => String c s
  | _ => name
  end.

(** The [except Exception as e] branch of the wrapper. *)
Definition on_exception (actual_node_name : string) (state : loc) (e : exn)
  : M world loc :=
  (if_saver
     (error_state <- on_heap (new_error_state state) ;;
      on_heap (setitem error_state "_error" (VStr (exn_msg e))) ;;;
      _saver_save_background error_state (actual_node_name +:+ "_ERROR")) ;;;
   raise e)%py.

(** The wrapper [save_state(node_name)(func)]. *)
Definition wrapper (node_name : option string) (func : node_function) (state : loc)
  : M world loc :=
  let actual_node_name := py_or node_name (__name__ func) in
  (try_except
     (result <- on_heap (call func state) ;;
      if_saver (_saver_save_background result actual_node_name) ;;;
      ret result)
     (on_exception actual_node_name state))%py.

Definition save_state (node_name : option string) (func : node_function)
  : loc -> M world loc :=
  wrapper node_name func.

(** A turn of the worker thread, in the process. *)
Definition world_worker_step (ev : env) (w : world)
  : world * option (job * result string) :=
  match _saver w with
  | Some self =>
      let '((self', o), r) := worker_step (heap w) ev (self, the_os w) in
      (mkWorld (heap w) o (Some self'), r)
  | None => (w, None)
  end.

(** The padded numbers below [k], in the order of the numbers. *)
Definition padded_upto (k : nat) : list string :=
  map (fun i => format_03d (Z.of_nat i)) (seq 0 k).

(** Every text of the list has three characters and sorts before all the
    texts after it. *)
Fixpoint increasing3 (l : list string) : bool :=
  match l with
  | [] => true
  | a :: l' =>
      (String.length a =? 3)%nat && forallb (str_lt a) l' && increasing3 l'
  end.

(** The path [save_sync] writes to when called on [self]. *)
Definition target_path (self : SimpleStateSaver) (ev : env) (node_name : string)
  : string :=
  os_path_join (run_dir self)
    (snapshot_filename (counter self + 1) node_name (now_hms ev)).

(** [data["metadata"]["order"]] of an envelope. *)
Definition metadata_order (data : value) : option Z :=
  match data with
  | VDict top =>
      match dict_get top "metadata" with
      | Some (VDict meta) =>
          match dict_get meta "order" with
          | Some (VInt n) => Some n
          | _ => None
          end
      | _ => None
      end
  | _ => None
  end.

(** [data["state"]] of an envelope. *)
Definition envelope_state (data : value) : option value :=
  match data with
  | VDict top => dict_get top "state"
  | _ => None
  end.

(** The entries of the dictionary [new_error_state] makes for an object. *)
Definition error_entries (obj : value) : list (key * value) :=
  match obj with
  | VDict entries => entries
  | _ => [(KStr "original_state", obj)]
  end.

(** ** A sample process

    A saver as [init_state_saver("wf", "states")] leaves it, a node
    function that raises, and two states. *)
Module Sample.
Definition saver : SimpleStateSaver :=
  mkSaver "wf" "states" "r" 0 (mkExecutor [] false) "states/wf_r".

Definition closed_saver : SimpleStateSaver :=
  mkSaver "wf" "states" "r" 0 (mkExecutor [] true) "states/wf_r".

Definition boom : exn := Exn "ValueError" "boom".

Definition failing : node_function :=
  mkNode "navigate_page" (fun _ => raise boom).

Definition dict_world (sv : option SimpleStateSaver) : world :=
  mkWorld {[ 0%nat := VDict [(KStr "a", VInt 1)] ]} (mkOs [] ∅ []) sv.

Definition str_world (sv : option SimpleStateSaver) : world :=
  mkWorld {[ 0%nat := VStr "x" ]} (mkOs [] ∅ []) sv.
End Sample.

(** ** Further notions used in the properties of the recorder *)

(** The value of the last entry of a dictionary whose key has the text
    [s]. *)
Fixpoint last_with_text (s : string) (es : list (key * value)) : option value :=
  match es with
  | [] => None
  | e :: es' =>
      match last_with_text s es' with
      | Some v => Some v
      | None => if bool_decide (py_str_key (fst e) = s) then Some (snd e) else None
      end
  end.

(** The entries of a dictionary, and nothing for another value. *)
Definition entries_of (v : value) : list (key * value) :=
  match v with
  | VDict es => es
  | _ => []
  end.

(** Decimal digits. *)
Definition is_digit (c : ascii) : bool :=
  (48 <=? nat_of_ascii c)%nat && (nat_of_ascii c <=? 57)%nat.

Fixpoint all_digits (s : string) : bool :=
  match s with
  | EmptyString => true
  | String c s' => is_digit c && all_digits s'
  end.

(** ** Successive calls of wrapped node functions

    Whatever drives the workflow calls wrapped node functions one after
    the other; each call is given by the name passed to [save_state], the
    node function, and the state. *)
Definition invocation : Type := (option string * node_function * loc)%type.

Fixpoint invoke_all (calls : list invocation) (w : world)
  : world * list (result loc) :=
  match calls with
  | [] => (w, [])
  | (node_name, func, state) :: calls' =>
      let (w1, r) := wrapper node_name func state w in
      let (w2, rs) := invoke_all calls' w1 in
      (w2, r :: rs)
  end.

(** The node name under which a call with outcome [r] is recorded. *)
Definition recorded_name (c : invocation) (r : result loc) : string :=
  py_or (fst (fst c)) (__name__ (snd (fst c)))
  +:+ match r with Ok _ => "" | Raise _ => "_ERROR" end.

(** The job of a call with outcome [r] records the state the node
    function returned, when it returned one. *)
Definition records_result (j : job) (r : result loc) : Prop :=
  match r with
  | Ok l => job_state j = l
  | Raise _ => True
  end.

(** The driver, or anything else, changes the heap. *)
Definition with_heap (h : gmap loc value) (w : world) : world :=
  mkWorld h (the_os w) (_saver w).

(** The worker takes one turn for each of the given readings of the
    clock and the file system. *)
Definition drain (evs : list env) (w : world) : world :=
  fold_left (fun w ev => fst (world_worker_step ev w)) evs w.

(** * Properties *)

Example clean_nested :
  _clean_for_json
    (VDict [(KStr "a", VTuple [VInt 1; VObj "<Page>"]); (KInt 7, VNone)])
  = VDict [(KStr "a", VList [VInt 1; VStr "<Page>"]); (KStr "7", VNone)].
Proof. reflexivity. Qed.

Example clean_collision :
  _clean_for_json (VDict [(KInt 1, VStr "a"); (KStr "1", VStr "b")])
  = VDict [(KStr "1", VStr "b")].
Proof. reflexivity. Qed.

(** ** Dictionaries *)

Section DictFacts.
Context {V : Type}.
Implicit Types (d : list (key * V)) (k : string) (v : V).

Lemma key_is_true k q : key_is k q = true <-> q = KStr k.
Proof.
  destruct q; simpl; try (split; [discriminate | congruence]).
  rewrite bool_decide_eq_true. split; congruence.
Qed.

Lemma dict_setitem_fresh d k v :
  KStr k ∉ map fst d -> dict_setitem d k v = d ++ [(KStr k, v)].
Proof.
  induction d as [|[q x] d IH]; simpl; intros Hk; [reflexivity|].
  destruct (key_is k q) eqn:E.
  - apply key_is_true in E. subst q. exfalso. apply Hk. left.
  - rewrite IH; [reflexivity|]. intros Hin. apply Hk. right. exact Hin.
Qed.

Lemma dict_get_setitem_eq d k v : dict_get (dict_setitem d k v) k = Some v.
Proof.
  induction d as [|[q x] d IH]; simpl.
  - rewrite bool_decide_eq_true_2; reflexivity.
  - destruct (key_is k q) eqn:E; simpl; rewrite E; [reflexivity | exact IH].
Qed.

Lemma dict_get_setitem_ne d k k0 v :
  k0 <> k -> dict_get (dict_setitem d k v) k0 = dict_get d k0.
Proof.
  intros Hne. induction d as [|[q x] d IH]; simpl.
  - rewrite bool_decide_eq_false_2; [reflexivity | congruence].
  - destruct (key_is k q) eqn:E; simpl.
    + apply key_is_true in E. subst q. simpl.
      rewrite bool_decide_eq_false_2; [reflexivity | congruence].
    + destruct (key_is k0 q); [reflexivity | exact IH].
Qed.
End DictFacts.

(** Binding in turn entries whose keys are pairwise different strings
    appends them. *)
Lemma fold_setitem_distinct {A V : Type} (kf : A -> string) (vf : A -> V)
    (es : list A) (acc : list (key * V)) :
  NoDup (map fst acc ++ map (fun e => KStr (kf e)) es) ->
  fold_left (fun m e => dict_setitem m (kf e) (vf e)) es acc
  = acc ++ map (fun e => (KStr (kf e), vf e)) es.
Proof.
  revert acc. induction es as [|e es IH]; intros acc Hnd; simpl.
  - rewrite app_nil_r. reflexivity.
  - assert (Hfresh : KStr (kf e) ∉ map fst acc).
    { intros Hin. apply NoDup_app in Hnd as (_ & Hdisj & _).
      apply (Hdisj _ Hin). left. }
    rewrite dict_setitem_fresh by exact Hfresh.
    rewrite IH.
    + rewrite <- app_assoc. reflexivity.
    + rewrite map_app. simpl. rewrite <- app_assoc. exact Hnd.
Qed.

(** ** The coercion *)



Lemma map_ext_Forall' {A B : Type} (f g : A -> B) (l : list A) :
  Forall (fun a => f a = g a) l -> map f l = map g l.
Proof. induction 1; simpl; congruence. Qed.


(** Where the texts of the keys of a mapping differ, the coerced mapping
    is the list of its coerced entries, one for one. *)
Lemma clean_dict_distinct (entries : list (key * value)) :
  NoDup (map (fun e => py_str_key (fst e)) entries) ->
  _clean_for_json (VDict entries)
  = VDict (map (fun e => (KStr (py_str_key (fst e)), _clean_for_json (snd e))) entries).
Proof.
  intros Hnd. simpl. f_equal.
  rewrite (fold_setitem_distinct (fun e => py_str_key (fst e))
             (fun e => _clean_for_json (snd e))); [reflexivity|].
  simpl. rewrite <- (map_map (fun e => py_str_key (fst e)) KStr).
  apply NoDup_fmap_2; [intros x y; congruence | exact Hnd].
Qed.

(** What the coercion returns can be written by [json.dump] as it is. *)
Lemma fold_setitem_json_ready (es : list (key * value)) (acc : list (key * value)) :
  Forall (fun e => json_ready (_clean_for_json (snd e)) = true) es ->
  forallb (fun e => is_str_key (fst e) && json_ready (snd e)) acc = true ->
  forallb (fun e => is_str_key (fst e) && json_ready (snd e))
    (fold_left (fun m e => dict_setitem m (py_str_key (fst e)) (_clean_for_json (snd e)))
       es acc) = true.
Proof.
  intros Hes. revert acc.
  induction Hes as [|e es He _ IH]; intros acc Hacc; simpl; [exact Hacc|].
  apply IH. clear IH.
  induction acc as [|[k' v'] acc IHacc]; simpl.
  - rewrite He. reflexivity.
  - simpl in Hacc. apply andb_prop in Hacc as [H1 H2].
    apply andb_prop in H1 as [H1a H1b].
    destruct (key_is _ k'); simpl.
    + rewrite H1a, He, H2. reflexivity.
    + rewrite H1a, H1b. simpl. apply IHacc. exact H2.
Qed.

Lemma clean_for_json_json_ready (obj : value) :
  json_ready (_clean_for_json obj) = true.
Proof.
  induction obj as [| | | | |items IH|items IH|entries IH|] using value_ind;
    simpl; try reflexivity.
  - apply forallb_forall. intros x Hx. apply in_map_iff in Hx as (y & <- & Hy).
    rewrite List.Forall_forall in IH. apply IH. exact Hy.
  - apply forallb_forall. intros x Hx. apply in_map_iff in Hx as (y & <- & Hy).
    rewrite List.Forall_forall in IH. apply IH. exact Hy.
  - apply fold_setitem_json_ready; [exact IH | reflexivity].
Qed.

Lemma str_key_text (k : key) : is_str_key k = true -> KStr (py_str_key k) = k.
Proof. destruct k; simpl; congruence. Qed.

(** C8 (as stated, refuted): a dictionary keyed by the integer 1 is built
    only of primitives and a keyed mapping, and the coercion returns a
    dictionary keyed by the string "1", which is not equal to it; a tuple
    comes back as a list. *)
Lemma clean_for_json_changes_plain_structure :
  plain_structure (VDict [(KInt 1, VStr "a")]) = true
  /\ _clean_for_json (VDict [(KInt 1, VStr "a")]) = VDict [(KStr "1", VStr "a")]
  /\ _clean_for_json (VDict [(KInt 1, VStr "a")]) <> VDict [(KInt 1, VStr "a")]
  /\ plain_structure (VTuple [VInt 1; VInt 2]) = true
  /\ _clean_for_json (VTuple [VInt 1; VInt 2]) <> VTuple [VInt 1; VInt 2].
Proof. repeat split; try reflexivity; discriminate. Qed.

(** C8 (amended): on a structure built only of primitives, lists, and
    dictionaries whose keys are strings, the coercion returns a value
    equal to its input. *)
Theorem clean_for_json_plain_json (obj : value) :
  plain_json obj = true -> _clean_for_json obj = obj.
Proof.
  induction obj as [| | | | |items IH|items IH|entries IH|] using value_ind;
    intros Hp; try reflexivity; try discriminate.
  - simpl in *. f_equal. rewrite <- (map_id items) at 2.
    apply map_ext_Forall'. rewrite List.Forall_forall in IH |- *.
    intros x Hx. apply IH; [exact Hx|].
    rewrite forallb_forall in Hp. apply Hp. exact Hx.
  - simpl in Hp. apply andb_prop in Hp as [Hnd Hall].
    apply bool_decide_eq_true in Hnd. rewrite forallb_forall in Hall.
    assert (Hkeys : map (fun e : key * value => KStr (py_str_key (fst e))) entries
                    = map fst entries).
    { apply map_ext_in. intros e He. apply str_key_text.
      specialize (Hall e He). apply andb_prop in Hall as [Hk _]. exact Hk. }
    simpl. f_equal.
    rewrite (fold_setitem_distinct (fun e => py_str_key (fst e))
               (fun e => _clean_for_json (snd e))).
    + simpl. rewrite <- (map_id entries) at 2. apply map_ext_in.
      intros [k v] He. specialize (Hall _ He). simpl in Hall.
      apply andb_prop in Hall as [Hk Hv]. simpl. f_equal.
      * apply str_key_text. exact Hk.
      * rewrite List.Forall_forall in IH. apply (IH _ He). exact Hv.
    + simpl. rewrite Hkeys. exact Hnd.
Qed.

Lemma clean_for_json_plain_json_witness :
  plain_json (VDict [(KStr "a", VList [VInt 1; VNone]); (KStr "b", VStr "x")]) = true
  /\ _clean_for_json (VDict [(KStr "a", VList [VInt 1; VNone]); (KStr "b", VStr "x")])
     = VDict [(KStr "a", VList [VInt 1; VNone]); (KStr "b", VStr "x")].
Proof.
  split; [reflexivity|].
  apply (clean_for_json_plain_json
           (VDict [(KStr "a", VList [VInt 1; VNone]); (KStr "b", VStr "x")])).
  reflexivity.
Defined.

(** ** File names *)

Lemma increasing3_lookup (l : list string) (i j : nat) (a b : string) :
  increasing3 l = true -> (i < j)%nat -> l !! i = Some a -> l !! j = Some b ->
  String.length a = 3%nat /\ String.length b = 3%nat /\ str_lt a b = true.
Proof.
  revert i j. induction l as [|c l IH]; intros i j Hinc Hij Ha Hb.
  - discriminate.
  - simpl in Hinc. apply andb_prop in Hinc as [Hc Hl].
    apply andb_prop in Hc as [Hlen Hall].
    destruct j as [|j]; [lia|]. simpl in Hb.
    destruct i as [|i]; simpl in Ha.
    + injection Ha as ->. apply Nat.eqb_eq in Hlen.
      rewrite forallb_forall in Hall.
      assert (Hin : In b l) by (apply list_elem_of_In, list_elem_of_lookup; eauto).
      split; [exact Hlen|]. split; [|apply Hall; exact Hin].
      clear -Hl Hb. revert j Hb. induction l as [|d l IHl]; intros j Hb; [discriminate|].
      simpl in Hl. apply andb_prop in Hl as [Hd Hl']. apply andb_prop in Hd as [Hd _].
      destruct j; simpl in Hb.
      * injection Hb as ->. apply Nat.eqb_eq. exact Hd.
      * eapply IHl; eauto.
    + apply (IH i j); [exact Hl | lia | exact Ha | exact Hb].
Qed.

Lemma padded_upto_1000 : increasing3 (padded_upto 1000) = true.
Proof. vm_compute. reflexivity. Qed.

Lemma padded_upto_lookup (k i : nat) :
  (i < k)%nat -> padded_upto k !! i = Some (format_03d (Z.of_nat i)).
Proof.
  intros Hi. unfold padded_upto. rewrite list_lookup_fmap.
  rewrite lookup_seq_lt by exact Hi. reflexivity.
Qed.

(** Texts of the same length that differ are told apart before their
    ends, whatever follows them. *)
Lemma compare_app_same_length (a b x y : string) :
  String.length a = String.length b ->
  String.compare a b = Lt ->
  String.compare (a +:+ x) (b +:+ y) = Lt.
Proof.
  revert b. induction a as [|c a IH]; intros [|d b] Hlen Hlt; simpl in *;
    try discriminate.
  destruct (Ascii.compare c d); try congruence.
  apply IH; [lia | exact Hlt].
Qed.

Lemma format_03d_order (n m : Z) :
  0 <= n -> n < m -> m <= 999 ->
  String.length (format_03d n) = 3%nat
  /\ String.length (format_03d m) = 3%nat
  /\ String.compare (format_03d n) (format_03d m) = Lt.
Proof.
  intros Hn Hnm Hm.
  destruct (increasing3_lookup (padded_upto 1000) (Z.to_nat n) (Z.to_nat m)
              (format_03d n) (format_03d m)) as (Ha & Hb & Hlt).
  - exact padded_upto_1000.
  - lia.
  - rewrite padded_upto_lookup by lia. rewrite Z2Nat.id by lia. reflexivity.
  - rewrite padded_upto_lookup by lia. rewrite Z2Nat.id by lia. reflexivity.
  - repeat split; try assumption.
    unfold str_lt, String.ltb in Hlt.
    destruct (String.compare (format_03d n) (format_03d m)); congruence.
Qed.

Lemma ltb_compare_Lt (a b : string) :
  str_lt a b = true <-> String.compare a b = Lt.
Proof.
  unfold str_lt, String.ltb. destruct (String.compare a b); split; congruence.
Qed.

(** C9 (as stated, refuted): past 999 the number is printed with the
    digits it has and no wider padding, and the order of the names no
    longer follows the numbers: the name for 1000 sorts before the name
    for 999. *)
Lemma snapshot_filename_order_lost_at_1000 :
  format_03d 1000 = "1000"
  /\ snd (save_sync (mkEnv "120000" "2024-01-01T12:00:00" NoFault) VNone "a"
            (mkSaver "wf" "states" "r" 999 (mkExecutor [] false) "states/wf_r",
             mkOs [] ∅ []))
     = Ok "states/wf_r/1000_a_120000.json"
  /\ str_lt (snapshot_filename 999 "a" "120000") (snapshot_filename 1000 "a" "120000")
     = false
  /\ str_lt (snapshot_filename 1000 "a" "120000") (snapshot_filename 999 "a" "120000")
     = true.
Proof. vm_compute. repeat split; reflexivity. Qed.

(** C9 (amended): the name of a snapshot file is the sequence number
    padded with zeros to three digits, the node name and the [HHMMSS]
    stamp, joined by underscores and ended by [.json]; for two different
    sequence numbers from 1 to 999 the names sort as the numbers do,
    whatever the node names and the stamps. *)
Theorem snapshot_filename_order (n m : Z) (node1 t1 node2 t2 : string) :
  1 <= n <= 999 -> 1 <= m <= 999 -> n <> m ->
  snapshot_filename n node1 t1
  = zfill 3 (pretty n) +:+ "_" +:+ node1 +:+ "_" +:+ t1 +:+ ".json"
  /\ String.length (zfill 3 (pretty n)) = 3%nat
  /\ (str_lt (snapshot_filename n node1 t1) (snapshot_filename m node2 t2) = true
      <-> n < m).
Proof.
  intros Hn Hm Hne.
  assert (Hlt : forall a b x y, 1 <= a -> a < b -> b <= 999 ->
            String.compare (format_03d a +:+ x) (format_03d b +:+ y) = Lt).
  { intros a b x y Ha Hab Hb.
    destruct (format_03d_order a b) as (La & Lb & Hc); try lia.
    apply compare_app_same_length; [congruence | exact Hc]. }
  split; [|split].
  - unfold snapshot_filename, format_03d. destruct n; try reflexivity; lia.
  - destruct (format_03d_order 0 n) as (_ & Ln & _); try lia.
    unfold format_03d in Ln. destruct n; try lia; exact Ln.
  - rewrite ltb_compare_Lt. unfold snapshot_filename. split.
    + intros Hc. destruct (Z.lt_ge_cases n m) as [|Hge]; [assumption|].
      assert (Hmn : m < n) by lia.
      specialize (Hlt m n ("_" +:+ node2 +:+ "_" +:+ t2 +:+ ".json")
                    ("_" +:+ node1 +:+ "_" +:+ t1 +:+ ".json")
                    ltac:(lia) Hmn ltac:(lia)).
      rewrite String.compare_antisym in Hc. rewrite Hlt in Hc. discriminate.
    + intros Hnm. apply Hlt; lia.
Qed.

Lemma snapshot_filename_order_witness :
  snapshot_filename 9 "launch_browser" "101500"
  = zfill 3 (pretty 9) +:+ "_" +:+ "launch_browser" +:+ "_" +:+ "101500" +:+ ".json"
  /\ String.length (zfill 3 (pretty 9)) = 3%nat
  /\ (str_lt (snapshot_filename 9 "launch_browser" "101500")
             (snapshot_filename 10 "analyze_page" "101459") = true
      <-> 9 < 10).
Proof.
  apply (snapshot_filename_order 9 10 "launch_browser" "101500" "analyze_page" "101459");
    lia.
Defined.

(** ** [save_sync] *)

(** What a call of [save_sync] does, by what the file system does. *)
Lemma save_sync_unfold (ev : env) (state : value) (node_name : string)
    (self : SimpleStateSaver) (o : os) :
  let self' := set_counter (counter self + 1) self in
  let filename := snapshot_filename (counter self + 1) node_name (now_hms ev) in
  let failed e :=
    "[StateSaver] Error saving " +:+ node_name +:+ ": " +:+ exn_msg e in
  save_sync ev state node_name (self, o) =
  match fault ev with
  | NoFault =>
      ((self',
        mkOs (dirs o)
          (<[target_path self ev node_name :=
               Complete (envelope self' ev node_name (_clean_for_json state))]> (disk o))
          (stdout o ++ ["[StateSaver] Saved: " +:+ filename])),
       Ok (target_path self ev node_name))
  | OpenFails e =>
      ((self', mkOs (dirs o) (disk o) (stdout o ++ [failed e])), Ok "")
  | DumpFails e =>
      ((self',
        mkOs (dirs o) (<[target_path self ev node_name := Truncated]> (disk o))
          (stdout o ++ [failed e])),
       Ok "")
  end.
Proof.
  unfold save_sync, target_path, bind, try_except, on_self, on_os, zoom, get,
    modify, ret, print, open_and_dump, raise.
  destruct (fault ev); reflexivity.
Qed.

Lemma save_sync_counter (ev : env) (state : value) (node_name : string)
    (self : SimpleStateSaver) (o : os) :
  counter (fst (fst (save_sync ev state node_name (self, o)))) = counter self + 1.
Proof. rewrite save_sync_unfold. destruct (fault ev); reflexivity. Qed.

Lemma save_sync_executor (ev : env) (state : value) (node_name : string)
    (self : SimpleStateSaver) (o : os) :
  _executor (fst (fst (save_sync ev state node_name (self, o)))) = _executor self.
Proof. rewrite save_sync_unfold. destruct (fault ev); reflexivity. Qed.


(** ** Runs: sequence numbers and the order of the jobs *)

Lemma save_background_counter (state : loc) (node_name : string)
    (self : SimpleStateSaver) :
  counter (fst (save_background state node_name self)) = counter self.
Proof.
  unfold save_background, zoom, submit.
  destruct (shut_down (_executor self)); reflexivity.
Qed.

Lemma save_background_open (state : loc) (node_name : string)
    (self : SimpleStateSaver) :
  shut_down (_executor self) = false ->
  save_background state node_name self
  = (set_executor (mkExecutor (work_queue (_executor self) ++ [Job state node_name])
                     false) self, Ok tt).
Proof.
  intros Hopen. unfold save_background, zoom, submit. rewrite Hopen. reflexivity.
Qed.

(** One event either leaves the counter alone and runs nothing, or runs
    [save_sync] once, which takes the next number. *)
Lemma step_counter (h : gmap loc value) (e : event) (s : SimpleStateSaver * os) :
  match snd (step h e s) with
  | None => counter (fst (fst (step h e s))) = counter (fst s)
  | Some x =>
      exec_order x = counter (fst s) + 1
      /\ counter (fst (fst (step h e s))) = counter (fst s) + 1
  end.
Proof.
  destruct s as [self o]. destruct e as [state node_name|ev|state node_name ev]; simpl.
  - pose proof (save_background_counter state node_name self) as Hc.
    destruct (save_background state node_name self) as [self' r]. exact Hc.
  - unfold worker_step. simpl.
    destruct (work_queue (_executor self)) as [|j rest]; [reflexivity|].
    match goal with
    | |- context [save_sync ?a ?b ?c (?d, ?f)] =>
        pose proof (save_sync_counter a b c d f) as Hc;
        destruct (save_sync a b c (d, f)) as [s' r]
    end.
    simpl in *. split; exact Hc.
  - pose proof (save_sync_counter ev (deref h state) node_name self o) as Hc.
    destruct (save_sync ev (deref h state) node_name (self, o)) as [s' r].
    simpl in *. split; exact Hc.
Qed.

Lemma seq_from (c : Z) (n : nat) :
  map (fun i => c + 1 + Z.of_nat i) (seq 1 n)
  = map (fun i => c + Z.of_nat i) (seq 2 n).
Proof.
  rewrite <- (seq_shift n 1). rewrite map_map. apply map_ext. intros i. lia.
Qed.

(** Along any schedule the executions of [save_sync] take the numbers
    that follow the counter, one after the other. *)
Lemma run_orders (h : gmap loc value) (sched : list event)
    (s : SimpleStateSaver * os) :
  map exec_order (snd (run h sched s))
  = map (fun i => counter (fst s) + Z.of_nat i)
        (seq 1 (length (snd (run h sched s))))
  /\ counter (fst (fst (run h sched s)))
     = counter (fst s) + Z.of_nat (length (snd (run h sched s))).
Proof.
  revert s. induction sched as [|e sched IH]; intros s; simpl.
  - split; [reflexivity | lia].
  - pose proof (step_counter h e s) as Hstep.
    destruct (step h e s) as [s1 x]. simpl in Hstep.
    specialize (IH s1). destruct (run h sched s1) as [s2 xs]. simpl in IH |- *.
    destruct IH as [IHo IHc]. destruct x as [x|].
    + destruct Hstep as [Hx Hc1]. simpl. split.
      * rewrite Hx, IHo, Hc1, seq_from. f_equal; lia.
      * rewrite IHc, Hc1. lia.
    + split; [rewrite IHo, Hstep; reflexivity | rewrite IHc, Hstep; reflexivity].
Qed.

(** The executor of a saver whose executor is open: the jobs run so far,
    followed by the jobs still queued, are the jobs queued at the start
    followed by the jobs submitted, in that order. *)
Lemma step_fifo (h : gmap loc value) (e : event) (s : SimpleStateSaver * os) :
  shut_down (_executor (fst s)) = false ->
  shut_down (_executor (fst (fst (step h e s)))) = false
  /\ match snd (step h e s) with
     | Some x => option_list (exec_job x)
     | None => []
     end ++ work_queue (_executor (fst (fst (step h e s))))
     = work_queue (_executor (fst s)) ++ submitted [e].
Proof.
  destruct s as [self o]. simpl. intros Hopen.
  destruct e as [state node_name|ev|state node_name ev]; simpl.
  - rewrite save_background_open by exact Hopen. simpl. split; reflexivity.
  - unfold worker_step. simpl.
    destruct (work_queue (_executor self)) as [|j rest] eqn:Hq; simpl.
    + rewrite Hq. split; [exact Hopen | reflexivity].
    + match goal with
      | |- context [save_sync ?a ?b ?c (?d, ?f)] =>
          pose proof (save_sync_executor a b c d f) as Hx;
          destruct (save_sync a b c (d, f)) as [s' r]
      end.
      simpl in *. rewrite Hx. simpl. rewrite Hopen, app_nil_r. split; reflexivity.
  - pose proof (save_sync_executor ev (deref h state) node_name self o) as Hx.
    destruct (save_sync ev (deref h state) node_name (self, o)) as [s' r].
    simpl in *. rewrite Hx, app_nil_r. split; [exact Hopen | reflexivity].
Qed.

Lemma submitted_cons (e : event) (sched : list event) :
  submitted (e :: sched) = submitted [e] ++ submitted sched.
Proof. unfold submitted. simpl. destruct e; reflexivity. Qed.

Lemma run_fifo (h : gmap loc value) (sched : list event)
    (s : SimpleStateSaver * os) :
  shut_down (_executor (fst s)) = false ->
  omap exec_job (snd (run h sched s))
    ++ work_queue (_executor (fst (fst (run h sched s))))
  = work_queue (_executor (fst s)) ++ submitted sched.
Proof.
  revert s. induction sched as [|e sched IH]; intros s Hopen.
  - simpl. rewrite app_nil_r. reflexivity.
  - rewrite submitted_cons. cbn [run].
    destruct (step_fifo h e s Hopen) as [Hopen1 Hq].
    destruct (step h e s) as [s1 x]. simpl in Hopen1, Hq.
    specialize (IH s1 Hopen1). destruct (run h sched s1) as [s2 xs].
    simpl in IH |- *. rewrite app_assoc, <- Hq, <- app_assoc, <- IH.
    destruct x as [x|]; simpl; [|reflexivity].
    destruct (exec_job x); reflexivity.
Qed.

(** A saver as [__init__] leaves it. *)
Lemma init_fresh (ie : init_env) (workflow base : string) (o o' : os)
    (self : SimpleStateSaver) :
  __init__ ie workflow base o = (o', Ok self) ->
  counter self = 0 /\ _executor self = mkExecutor [] false.
Proof.
  unfold __init__, bind, makedirs, print, modify, raise, ret.
  destruct (mkdir_fault ie base); [discriminate|].
  destruct (mkdir_fault ie _); intros H; inversion H; subst; split; reflexivity.
Qed.

(** The file a successful [save_sync] leaves carries, as the [order] of
    its metadata, the number the call took. *)
Lemma save_sync_file_order (ev : env) (state : value) (node_name : string)
    (self : SimpleStateSaver) (o : os) :
  fault ev = NoFault ->
  exists data,
    disk (snd (fst (save_sync ev state node_name (self, o))))
      !! target_path self ev node_name = Some (Complete data)
    /\ metadata_order data = Some (counter self + 1)
    /\ envelope_state data = Some (_clean_for_json state).
Proof.
  intros Hf. rewrite save_sync_unfold. cbv zeta. rewrite Hf. simpl.
  eexists. split; [apply lookup_insert_eq|]. split; reflexivity.
Qed.

(** C1: from the construction of the saver on, whatever the calling
    thread submits or saves itself and whenever the worker takes its
    turns, the N executions of [save_sync] take the numbers 1, 2, ..., N
    in this order: no number is skipped and none is taken twice, and the
    counter ends at N.  Whether a write fails plays no part. *)
Theorem assigned_orders_are_1_to_N (ie : init_env) (workflow base : string)
    (o o' : os) (self : SimpleStateSaver) (h : gmap loc value)
    (sched : list event) :
  __init__ ie workflow base o = (o', Ok self) ->
  let out := run h sched (self, o') in
  map exec_order (snd out) = map Z.of_nat (seq 1 (length (snd out)))
  /\ NoDup (map exec_order (snd out))
  /\ counter (fst (fst out)) = Z.of_nat (length (snd out)).
Proof.
  intros Hinit. destruct (init_fresh _ _ _ _ _ _ Hinit) as [Hc _]. cbv zeta.
  destruct (run_orders h sched (self, o')) as [Ho Hn]. simpl in Ho, Hn.
  rewrite Hc in Ho, Hn.
  assert (Heq : map exec_order (snd (run h sched (self, o')))
                = map Z.of_nat (seq 1 (length (snd (run h sched (self, o')))))).
  { rewrite Ho. apply map_ext. intros i. lia. }
  split; [exact Heq|]. split; [|lia].
  rewrite Heq. apply NoDup_fmap_2; [apply Nat2Z.inj' | apply NoDup_seq].
Qed.

Lemma assigned_orders_are_1_to_N_witness :
  let ie := mkInitEnv "20240101_120000" "3f2a9c1e-77aa" (fun _ => None) in
  let ok := mkEnv "120001" "2024-01-01T12:00:01" NoFault in
  let full := mkEnv "120002" "2024-01-01T12:00:02"
                (DumpFails (Exn "OSError" "No space left on device")) in
  let sched := [Submit 0%nat "a"; Direct 0%nat "b" full; Work ok;
                Submit 0%nat "c"; Work full] in
  let self := mkSaver "wf" "states" "20240101_120000_3f2a9c1e" 0
                (mkExecutor [] false) "states/wf_20240101_120000_3f2a9c1e" in
  let o' := mkOs ["states/wf_20240101_120000_3f2a9c1e"; "states"] ∅
              ["[StateSaver] Saving states to: states/wf_20240101_120000_3f2a9c1e"] in
  let out := run ∅ sched (self, o') in
  map exec_order (snd out) = map Z.of_nat (seq 1 (length (snd out)))
  /\ NoDup (map exec_order (snd out))
  /\ counter (fst (fst out)) = Z.of_nat (length (snd out)).
Proof.
  intros ie ok full sched self o'.
  apply (assigned_orders_are_1_to_N ie "wf" "states" (mkOs [] ∅ []) o' self ∅ sched).
  reflexivity.
Defined.

Example run_three_executions :
  let ok := mkEnv "120001" "2024-01-01T12:00:01" NoFault in
  let full := mkEnv "120002" "2024-01-01T12:00:02"
                (DumpFails (Exn "OSError" "No space left on device")) in
  map (fun x => (exec_node x, exec_order x, exec_result x))
    (snd (run ∅ [Submit 0%nat "a"; Direct 0%nat "b" full; Work ok;
                 Submit 0%nat "c"; Work full]
            (mkSaver "wf" "states" "r" 0 (mkExecutor [] false) "states/wf_r",
             mkOs [] ∅ [])))
  = [("b", 1, Ok ""); ("a", 2, Ok "states/wf_r/002_a_120001.json"); ("c", 3, Ok "")].
Proof. vm_compute. reflexivity. Qed.

(** C3 (as stated, refuted): [save_background] takes no sequence number
    on the calling thread.  After the call the counter is what it was and
    the job waits in the queue; the number is taken when the worker runs
    the job.  A snapshot saved directly in between takes the number
    before the job submitted earlier. *)
Lemma save_background_takes_no_number :
  let self := mkSaver "wf" "states" "r" 0 (mkExecutor [] false) "states/wf_r" in
  let o := mkOs [] ∅ [] in
  let ok := mkEnv "120001" "2024-01-01T12:00:01" NoFault in
  save_background 0%nat "launch_browser" self
  = (set_executor (mkExecutor [Job 0%nat "launch_browser"] false) self, Ok tt)
  /\ counter (fst (save_background 0%nat "launch_browser" self)) <> counter self + 1
  /\ snd (run ∅ [Submit 0%nat "launch_browser"] (self, o)) = []
  /\ map (fun x => (exec_job x, exec_order x))
       (snd (run ∅ [Submit 0%nat "launch_browser"; Work ok] (self, o)))
     = [(Some (Job 0%nat "launch_browser"), 1)]
  /\ map (fun x => (exec_node x, exec_order x))
       (snd (run ∅ [Submit 0%nat "launch_browser"; Direct 0%nat "navigate_page" ok;
                    Work ok] (self, o)))
     = [("navigate_page", 1); ("launch_browser", 2)].
Proof. vm_compute. repeat split; try reflexivity. discriminate. Qed.

(** C3 (amended): [save_background] only queues the job and leaves the
    counter alone; the number is taken by [save_sync] when the single
    worker runs the job.  The worker takes the jobs in the order of their
    submission: the jobs run so far, followed by the jobs still queued,
    are the jobs submitted, in that order.  The executions take the
    numbers 1, 2, ... in the order in which they run, so that the numbers
    of the jobs follow the order of submission. *)
Theorem background_jobs_run_in_submission_order (ie : init_env)
    (workflow base : string) (o o' : os) (self : SimpleStateSaver)
    (h : gmap loc value) (sched : list event) :
  __init__ ie workflow base o = (o', Ok self) ->
  let out := run h sched (self, o') in
  omap exec_job (snd out) ++ work_queue (_executor (fst (fst out)))
  = submitted sched
  /\ map exec_order (snd out) = map Z.of_nat (seq 1 (length (snd out)))
  /\ (forall state node_name saver,
        counter (fst (save_background state node_name saver)) = counter saver).
Proof.
  intros Hinit. destruct (init_fresh _ _ _ _ _ _ Hinit) as [Hc Hex]. cbv zeta.
  split; [|split].
  - rewrite (run_fifo h sched (self, o')); simpl; rewrite Hex; reflexivity.
  - destruct (run_orders h sched (self, o')) as [Ho _]. simpl in Ho.
    rewrite Ho, Hc. apply map_ext. intros i. lia.
  - intros. apply save_background_counter.
Qed.

Lemma background_jobs_run_in_submission_order_witness :
  let ie := mkInitEnv "20240101_120000" "3f2a9c1e-77aa" (fun _ => None) in
  let ok := mkEnv "120001" "2024-01-01T12:00:01" NoFault in
  let sched := [Submit 0%nat "a"; Submit 1%nat "b"; Work ok; Submit 2%nat "c";
                Work ok] in
  let self := mkSaver "wf" "states" "20240101_120000_3f2a9c1e" 0
                (mkExecutor [] false) "states/wf_20240101_120000_3f2a9c1e" in
  let o' := mkOs ["states/wf_20240101_120000_3f2a9c1e"; "states"] ∅
              ["[StateSaver] Saving states to: states/wf_20240101_120000_3f2a9c1e"] in
  let out := run ∅ sched (self, o') in
  omap exec_job (snd out) ++ work_queue (_executor (fst (fst out)))
  = submitted sched
  /\ map exec_order (snd out) = map Z.of_nat (seq 1 (length (snd out)))
  /\ (forall state node_name saver,
        counter (fst (save_background state node_name saver)) = counter saver).
Proof.
  intros ie ok sched self o'.
  apply (background_jobs_run_in_submission_order ie "wf" "states" (mkOs [] ∅ []) o'
           self ∅ sched).
  reflexivity.
Defined.

(** ** The wrapper *)

Lemma new_error_state_alloc (state : loc) (h : gmap loc value) :
  new_error_state state h = alloc (VDict (error_entries (deref h state))) h.
Proof. unfold new_error_state. destruct (deref h state); reflexivity. Qed.

Lemma fresh_lookup_None (h : gmap loc value) : h !! fresh (dom h) = None.
Proof. apply not_elem_of_dom. apply is_fresh. Qed.

(** The heap after the error state was made and given its [_error]. *)
Lemma error_state_heap (state : loc) (msg : string) (h : gmap loc value) :
  let l := fresh (dom h) in
  bind (new_error_state state)
    (fun error_state => setitem error_state "_error" (VStr msg)) h
  = (<[l := VDict (dict_setitem (error_entries (deref h state)) "_error" (VStr msg))]> h,
     Ok tt).
Proof.
  cbv zeta. unfold bind. rewrite new_error_state_alloc. unfold alloc, setitem.
  rewrite lookup_insert_eq, insert_insert_eq. reflexivity.
Qed.

(** What the [except] branch does. *)
Lemma on_exception_unfold (name : string) (state : loc) (e : exn) (w : world) :
  on_exception name state e w =
  match _saver w with
  | None => (w, Raise e)
  | Some self =>
      let l := fresh (dom (heap w)) in
      let h2 := <[l := VDict (dict_setitem (error_entries (deref (heap w) state))
                                "_error" (VStr (exn_msg e)))]> (heap w) in
      if shut_down (_executor self)
      then (mkWorld h2 (the_os w) (Some self),
            Raise (Exn "RuntimeError" "cannot schedule new futures after shutdown"))
      else (mkWorld h2 (the_os w)
              (Some (set_executor
                       (mkExecutor (work_queue (_executor self)
                                      ++ [Job l (name +:+ "_ERROR")]) false)
                       self)),
            Raise e)
  end.
Proof.
  pose proof (error_state_heap state (exn_msg e) (heap w)) as Hheap.
  cbv zeta in Hheap.
  unfold bind in Hheap. rewrite new_error_state_alloc in Hheap. unfold alloc in Hheap.
  unfold on_exception, bind, on_heap, zoom, if_saver, raise. simpl.
  destruct (_saver w) as [self|] eqn:Hs; [|reflexivity].
  rewrite new_error_state_alloc. unfold alloc. simpl.
  unfold setitem in *. rewrite lookup_insert_eq in *. simpl.
  inversion Hheap as [Hh]. rewrite Hh.
  unfold _saver_save_background. simpl.
  unfold save_background, zoom, submit.
  destruct (shut_down (_executor self)) eqn:Hsd; simpl; [destruct self; reflexivity|].
  reflexivity.
Qed.

(** What the wrapper does when the node function raises. *)
Lemma wrapper_on_failure (node_name : option string) (func : node_function)
    (state : loc) (w : world) (h1 : gmap loc value) (e : exn) :
  call func state (heap w) = (h1, Raise e) ->
  wrapper node_name func state w =
  match _saver w with
  | None => (mkWorld h1 (the_os w) None, Raise e)
  | Some self =>
      let l := fresh (dom h1) in
      let h2 := <[l := VDict (dict_setitem (error_entries (deref h1 state))
                                "_error" (VStr (exn_msg e)))]> h1 in
      let name := py_or node_name (__name__ func) +:+ "_ERROR" in
      if shut_down (_executor self)
      then (mkWorld h2 (the_os w) (Some self),
            Raise (Exn "RuntimeError" "cannot schedule new futures after shutdown"))
      else (mkWorld h2 (the_os w)
              (Some (set_executor
                       (mkExecutor (work_queue (_executor self) ++ [Job l name]) false)
                       self)),
            Raise e)
  end.
Proof.
  intros Hcall.
  unfold wrapper, try_except, bind, on_heap, zoom. simpl. rewrite Hcall. simpl.
  rewrite on_exception_unfold. simpl.
  destruct (_saver w); reflexivity.
Qed.

(** The [except] branch leaves every object of the heap as it was. *)
Lemma on_exception_frame (name : string) (state : loc) (e : exn) (w : world)
    (l : loc) (v : value) :
  heap w !! l = Some v -> heap (fst (on_exception name state e w)) !! l = Some v.
Proof.
  intros Hl. rewrite on_exception_unfold.
  destruct (_saver w) as [self|]; [|exact Hl]. cbv zeta.
  assert (Hne : fresh (dom (heap w)) <> l).
  { intros Heq. pose proof (fresh_lookup_None (heap w)) as Hf.
    rewrite Heq, Hl in Hf. discriminate. }
  destruct (shut_down (_executor self)); simpl; rewrite lookup_insert_ne; auto.
Qed.


(** C4 (amended): when the node function raises [e] on a state that is
    not a dictionary, and a saver is configured whose executor takes
    jobs, the wrapper hands the recorder the new dictionary
    [{"original_state": state, "_error": str(e)}]. *)
Theorem error_snapshot_of_other_state (node_name : option string)
    (func : node_function) (state : loc) (w : world) (h1 : gmap loc value)
    (e : exn) (self : SimpleStateSaver) (obj : value) :
  call func state (heap w) = (h1, Raise e) ->
  h1 !! state = Some obj ->
  (forall entries, obj <> VDict entries) ->
  _saver w = Some self ->
  shut_down (_executor self) = false ->
  let out := wrapper node_name func state w in
  exists (error_state : loc) (self' : SimpleStateSaver),
    snd out = Raise e
    /\ _saver (fst out) = Some self'
    /\ work_queue (_executor self')
       = work_queue (_executor self)
           ++ [Job error_state (py_or node_name (__name__ func) +:+ "_ERROR")]
    /\ heap (fst out) !! error_state
       = Some (VDict [(KStr "original_state", obj); (KStr "_error", VStr (exn_msg e))]).
Proof.
  intros Hcall Hstate Hobj Hs Hopen. cbv zeta.
  rewrite (wrapper_on_failure _ _ _ _ _ _ Hcall), Hs. cbv zeta. rewrite Hopen.
  eexists _, _. simpl. split; [reflexivity|]. split; [reflexivity|].
  split; [reflexivity|].
  rewrite lookup_insert_eq. unfold deref. rewrite Hstate. simpl.
  destruct obj; try reflexivity. exfalso. eapply Hobj. reflexivity.
Qed.

(** C10: whatever object exists when the node function returns or
    raises, the state among them, is after the wrapper what it was: the
    wrapper writes only to the dictionary it has just made. *)
Theorem wrapper_leaves_objects_alone (node_name : option string)
    (func : node_function) (state : loc) (w : world) (l : loc) (v : value) :
  fst (call func state (heap w)) !! l = Some v ->
  heap (fst (wrapper node_name func state w)) !! l = Some v.
Proof.
  destruct (call func state (heap w)) as [h1 [result|e]] eqn:Hcall; simpl; intros Hl.
  - unfold wrapper, try_except, bind, on_heap, zoom, if_saver, ret,
      _saver_save_background. simpl. rewrite Hcall. simpl.
    destruct (_saver w) as [self|]; simpl; [|exact Hl].
    destruct (save_background result _ self) as [self' [[]|e']] eqn:Hsb; simpl;
      [exact Hl|].
    apply on_exception_frame. exact Hl.
  - unfold wrapper, try_except, bind, on_heap, zoom. simpl. rewrite Hcall. simpl.
    apply on_exception_frame. exact Hl.
Qed.

Example wrapper_sample :
  let out := wrapper None Sample.failing 0%nat (Sample.dict_world (Some Sample.saver)) in
  snd out = Raise Sample.boom
  /\ heap (fst out) !! 0%nat = Some (VDict [(KStr "a", VInt 1)])
  /\ heap (fst out) !! 1%nat
     = Some (VDict [(KStr "a", VInt 1); (KStr "_error", VStr "boom")])
  /\ option_map (fun sv => work_queue (_executor sv)) (_saver (fst out))
     = Some [Job 1%nat "navigate_page_ERROR"].
Proof. vm_compute. repeat split; reflexivity. Qed.


(** C4 (as stated, refuted): for the state ["x"] the dictionary handed to
    the recorder has the key ["original_state"]; it is not the dictionary
    with the key ["originalState"]. *)
Lemma error_snapshot_key_is_original_state :
  let out := wrapper None Sample.failing 0%nat (Sample.str_world (Some Sample.saver)) in
  snd out = Raise Sample.boom
  /\ option_map (fun sv => work_queue (_executor sv)) (_saver (fst out))
     = Some [Job 1%nat "navigate_page_ERROR"]
  /\ heap (fst out) !! 1%nat
     = Some (VDict [(KStr "original_state", VStr "x"); (KStr "_error", VStr "boom")])
  /\ heap (fst out) !! 1%nat
     <> Some (VDict [(KStr "originalState", VStr "x"); (KStr "_error", VStr "boom")]).
Proof. vm_compute. repeat split; try reflexivity. discriminate. Qed.

Lemma error_snapshot_of_other_state_witness :
  let w := Sample.str_world (Some Sample.saver) in
  let out := wrapper None Sample.failing 0%nat w in
  exists (error_state : loc) (self' : SimpleStateSaver),
    snd out = Raise Sample.boom
    /\ _saver (fst out) = Some self'
    /\ work_queue (_executor self')
       = work_queue (_executor Sample.saver)
           ++ [Job error_state (py_or None (__name__ Sample.failing) +:+ "_ERROR")]
    /\ heap (fst out) !! error_state
       = Some (VDict [(KStr "original_state", VStr "x");
                      (KStr "_error", VStr (exn_msg Sample.boom))]).
Proof.
  intros w.
  apply (error_snapshot_of_other_state None Sample.failing 0%nat w (heap w) Sample.boom
           Sample.saver (VStr "x")); try reflexivity.
  intros entries. discriminate.
Defined.

Lemma wrapper_leaves_objects_alone_witness :
  heap (fst (wrapper None Sample.failing 0%nat (Sample.dict_world (Some Sample.saver))))
    !! 0%nat
  = Some (VDict [(KStr "a", VInt 1)]).
Proof.
  apply (wrapper_leaves_objects_alone None Sample.failing 0%nat
           (Sample.dict_world (Some Sample.saver)) 0%nat (VDict [(KStr "a", VInt 1)])).
  reflexivity.
Defined.

(** A turn of the worker raises nothing: what [save_sync] returns is kept
    by the future, and [save_sync] returns. *)
Lemma worker_step_returns (h : gmap loc value) (ev : env)
    (s : SimpleStateSaver * os) :
  match snd (worker_step h ev s) with
  | Some (j, r) => exists path, r = Ok path
  | None => True
  end.
Proof.
  unfold worker_step. destruct (work_queue (_executor (fst s))) as [|j rest];
    [exact I|].
  rewrite save_sync_unfold. cbv zeta. destruct (fault ev); simpl; eauto.
Qed.

(** C6 (as stated, refuted): the handler of the wrapper has no handler of
    its own.  When the executor of the saver was shut down, submitting the
    error snapshot raises [RuntimeError], and that is what the wrapper
    raises, not the failure of the node function. *)
Lemma secondary_failure_replaces_original :
  let out := wrapper None Sample.failing 0%nat
               (Sample.dict_world (Some Sample.closed_saver)) in
  snd out = Raise (Exn "RuntimeError" "cannot schedule new futures after shutdown")
  /\ snd out <> Raise Sample.boom.
Proof. vm_compute. split; [reflexivity | discriminate]. Qed.

(** C6 (amended): when the node function raises [e] and either no saver
    is configured or the executor of the saver takes the job, the wrapper
    raises [e] itself; and whatever the file system does when the worker
    later runs a job, the failure is caught in [save_sync], which returns,
    so that nothing of it reaches the driver. *)
Theorem original_failure_reraised (node_name : option string)
    (func : node_function) (state : loc) (w : world) (h1 : gmap loc value)
    (e : exn) :
  call func state (heap w) = (h1, Raise e) ->
  (forall self, _saver w = Some self -> shut_down (_executor self) = false) ->
  let out := wrapper node_name func state w in
  snd out = Raise e
  /\ forall ev,
       match snd (world_worker_step ev (fst out)) with
       | Some (j, r) => exists path, r = Ok path
       | None => True
       end.
Proof.
  intros Hcall Hopen. cbv zeta. split.
  - rewrite (wrapper_on_failure _ _ _ _ _ _ Hcall).
    destruct (_saver w) as [self|]; [|reflexivity]. cbv zeta.
    rewrite (Hopen self eq_refl). reflexivity.
  - intros ev. unfold world_worker_step.
    destruct (_saver (fst (wrapper node_name func state w))) as [self|]; [|exact I].
    match goal with
    | |- context [worker_step ?a ?b ?c] =>
        pose proof (worker_step_returns a b c) as Hw;
        destruct (worker_step a b c) as [[self' o'] r]
    end.
    exact Hw.
Qed.

Lemma original_failure_reraised_witness :
  let w := Sample.dict_world (Some Sample.saver) in
  let out := wrapper None Sample.failing 0%nat w in
  snd out = Raise Sample.boom
  /\ forall ev,
       match snd (world_worker_step ev (fst out)) with
       | Some (j, r) => exists path, r = Ok path
       | None => True
       end.
Proof.
  intros w.
  apply (original_failure_reraised None Sample.failing 0%nat w (heap w) Sample.boom).
  - reflexivity.
  - intros self Hs. injection Hs as <-. reflexivity.
Defined.

Example error_snapshot_written :
  let out := wrapper None Sample.failing 0%nat (Sample.dict_world (Some Sample.saver)) in
  let ev := mkEnv "120001" "2024-01-01T12:00:01" NoFault in
  let w' := fst (world_worker_step ev (fst out)) in
  option_map (fun f => match f with
                       | Complete data => envelope_state data
                       | Truncated => None
                       end)
    (disk (the_os w') !! "states/wf_r/001_navigate_page_ERROR_120001.json")
  = Some (Some (VDict [(KStr "a", VInt 1); (KStr "_error", VStr "boom")])).
Proof. vm_compute. reflexivity. Qed.

(** From [init_state_saver] to the file: the saver is made, a wrapped
    node function fails on the state, and the worker writes the error
    snapshot. *)
Example init_fail_and_write :
  let ie := mkInitEnv "20240101_120000" "3f2a9c1e-77aa" (fun _ => None) in
  let ev := mkEnv "120001" "2024-01-01T12:00:01" NoFault in
  let w0 := fst (init_state_saver ie "wf" "states" (Sample.str_world None)) in
  let w1 := fst (save_state (Some "navigate_page") Sample.failing 0%nat w0) in
  let w2 := fst (world_worker_step ev w1) in
  option_map (fun f => match f with
                       | Complete data => (metadata_order data, envelope_state data)
                       | Truncated => (None, None)
                       end)
    (disk (the_os w2)
       !! "states/wf_20240101_120000_3f2a9c1e/001_navigate_page_ERROR_120001.json")
  = Some (Some 1,
          Some (VDict [(KStr "original_state", VStr "x"); (KStr "_error", VStr "boom")])).
Proof. vm_compute. reflexivity. Qed.

(** * Further properties of the recorder *)

(** ** The coercion: shape of the result, fixed points, colliding keys *)

Lemma dict_setitem_keys_fresh {V : Type} (d : list (key * V)) (k : string) (v : V) :
  KStr k ∉ map fst d -> map fst (dict_setitem d k v) = map fst d ++ [KStr k].
Proof. intros Hk. rewrite dict_setitem_fresh by exact Hk. rewrite map_app. reflexivity. Qed.

Lemma dict_setitem_keys_present {V : Type} (d : list (key * V)) (k : string) (v : V) :
  KStr k ∈ map fst d -> map fst (dict_setitem d k v) = map fst d.
Proof.
  induction d as [|[q x] d IH]; simpl; intros Hk.
  - inversion Hk.
  - destruct (key_is k q) eqn:E; simpl; [reflexivity|].
    f_equal. apply IH. apply list_elem_of_In in Hk. destruct Hk as [Hq|Hk].
    + simpl in Hq. subst q. simpl in E. rewrite bool_decide_eq_true_2 in E by reflexivity.
      discriminate.
    + apply list_elem_of_In. exact Hk.
Qed.

Lemma dict_setitem_NoDup {V : Type} (d : list (key * V)) (k : string) (v : V) :
  NoDup (map fst d) -> NoDup (map fst (dict_setitem d k v)).
Proof.
  intros Hnd. destruct (decide (KStr k ∈ map fst d)) as [Hin|Hout].
  - rewrite dict_setitem_keys_present by exact Hin. exact Hnd.
  - rewrite dict_setitem_keys_fresh by exact Hout.
    apply NoDup_app. split; [exact Hnd|]. split.
    + intros q Hq Hq'. apply list_elem_of_singleton in Hq'. subst q. contradiction.
    + apply NoDup_singleton.
Qed.

Lemma fold_setitem_NoDup {A V : Type} (kf : A -> string) (vf : A -> V)
    (es : list A) (acc : list (key * V)) :
  NoDup (map fst acc) ->
  NoDup (map fst (fold_left (fun m e => dict_setitem m (kf e) (vf e)) es acc)).
Proof.
  revert acc. induction es as [|e es IH]; intros acc Hacc; simpl; [exact Hacc|].
  apply IH. apply dict_setitem_NoDup. exact Hacc.
Qed.

Lemma fold_setitem_plain (es : list (key * value)) (acc : list (key * value)) :
  Forall (fun e => plain_json (_clean_for_json (snd e)) = true) es ->
  forallb (fun e => is_str_key (fst e) && plain_json (snd e)) acc = true ->
  forallb (fun e => is_str_key (fst e) && plain_json (snd e))
    (fold_left (fun m e => dict_setitem m (py_str_key (fst e)) (_clean_for_json (snd e)))
       es acc) = true.
Proof.
  intros Hes. revert acc.
  induction Hes as [|e es He _ IH]; intros acc Hacc; simpl; [exact Hacc|].
  apply IH. clear IH.
  induction acc as [|[q x] acc IHacc]; simpl.
  - rewrite He. reflexivity.
  - simpl in Hacc. apply andb_prop in Hacc as [H1 H2].
    apply andb_prop in H1 as [H1a H1b].
    destruct (key_is _ q); simpl.
    + rewrite H1a, He, H2. reflexivity.
    + rewrite H1a, H1b. simpl. apply IHacc. exact H2.
Qed.

(** The result of the coercion is plain. *)
Lemma clean_result_plain (obj : value) :
  plain_json (_clean_for_json obj) = true.
Proof.
  induction obj as [| | | | |items IH|items IH|entries IH|] using value_ind;
    simpl; try reflexivity.
  - apply forallb_forall. intros x Hx. apply in_map_iff in Hx as (y & <- & Hy).
    rewrite List.Forall_forall in IH. apply IH. exact Hy.
  - apply forallb_forall. intros x Hx. apply in_map_iff in Hx as (y & <- & Hy).
    rewrite List.Forall_forall in IH. apply IH. exact Hy.
  - apply andb_true_intro. split.
    + apply bool_decide_eq_true.
      apply (fold_setitem_NoDup (fun e => py_str_key (fst e))
               (fun e => _clean_for_json (snd e))).
      apply NoDup_nil_2.
    + apply fold_setitem_plain; [exact IH | reflexivity].
Qed.


(** The coercion returns what it is given when that is plain. *)
Lemma clean_for_json_fixes_plain (obj : value) :
  plain_json obj = true -> _clean_for_json obj = obj.
Proof.
  induction obj as [| | | | |items IH|items IH|entries IH|] using value_ind;
    intros Hp; try reflexivity; try discriminate.
  - simpl in *. f_equal. rewrite <- (map_id items) at 2.
    apply map_ext_Forall'. rewrite List.Forall_forall in IH |- *.
    intros x Hx. apply IH; [exact Hx|].
    rewrite forallb_forall in Hp. apply Hp. exact Hx.
  - simpl in Hp. apply andb_prop in Hp as [Hnd Hall].
    apply bool_decide_eq_true in Hnd. rewrite forallb_forall in Hall.
    rewrite clean_dict_distinct.
    + f_equal. rewrite <- (map_id entries) at 2. apply map_ext_in.
      intros [k v] He. specialize (Hall _ He). simpl in Hall.
      apply andb_prop in Hall as [Hk Hv]. simpl. f_equal.
      * apply str_key_text. exact Hk.
      * rewrite List.Forall_forall in IH. apply (IH _ He). exact Hv.
    + assert (Hkeys : map (fun e : key * value => KStr (py_str_key (fst e))) entries
                      = map fst entries).
      { apply map_ext_in. intros e He. apply str_key_text.
        specialize (Hall e He). apply andb_prop in Hall as [Hk _]. exact Hk. }
      apply (NoDup_fmap_1 KStr).
      change (NoDup (map KStr (map (fun e : key * value => py_str_key (fst e)) entries))).
      rewrite map_map, Hkeys. exact Hnd.
Qed.

(** X2: the coercion is idempotent: coercing what the coercion returned
    changes nothing. *)
Theorem clean_for_json_idempotent (obj : value) :
  _clean_for_json (_clean_for_json obj) = _clean_for_json obj.
Proof.
  apply clean_for_json_fixes_plain.
  apply clean_result_plain.
Qed.

Lemma fold_setitem_lookup (es acc : list (key * value)) (s : string) :
  dict_get
    (fold_left (fun m e => dict_setitem m (py_str_key (fst e)) (_clean_for_json (snd e)))
       es acc) s
  = match last_with_text s es with
    | Some v => Some (_clean_for_json v)
    | None => dict_get acc s
    end.
Proof.
  revert acc. induction es as [|e es IH]; intros acc; simpl; [reflexivity|].
  rewrite IH. destruct (last_with_text s es) as [v|]; [reflexivity|].
  destruct (bool_decide (py_str_key (fst e) = s)) eqn:E.
  - apply bool_decide_eq_true in E. subst s. apply dict_get_setitem_eq.
  - apply bool_decide_eq_false in E. apply dict_get_setitem_ne. congruence.
Qed.

(** X3: in the dictionary the coercion returns, the value under a string
    [s] is the coercion of the value of the last entry of the input whose
    key has the text [s]; there is none when no key has that text.  So
    when the texts of two keys collide, as for [1] and ["1"], the later
    entry wins. *)
Theorem clean_for_json_dict_lookup (entries : list (key * value)) (s : string) :
  dict_get (entries_of (_clean_for_json (VDict entries))) s
  = option_map _clean_for_json (last_with_text s entries).
Proof.
  simpl. rewrite fold_setitem_lookup.
  destruct (last_with_text s entries); reflexivity.
Qed.

(** A call of [save_sync] keeps the run directory and every file but the
    one at its target path. *)
Lemma save_sync_other_files (ev : env) (state : value) (node_name : string)
    (self : SimpleStateSaver) (o : os) :
  run_dir (fst (fst (save_sync ev state node_name (self, o)))) = run_dir self
  /\ forall path, path <> target_path self ev node_name ->
       disk (snd (fst (save_sync ev state node_name (self, o)))) !! path
       = disk o !! path.
Proof.
  rewrite save_sync_unfold. cbv zeta.
  destruct (fault ev); simpl; split; auto;
    intros path Hne; rewrite lookup_insert_ne; auto.
Qed.

(** ** [save_sync]: what a call leaves alone *)

(** X4: a call of [save_sync] touches no file but the one at its target
    path, makes no directory, prints exactly one line, and leaves the
    executor, the run directory and the identifiers of the saver as they
    were. *)
Theorem save_sync_frame (ev : env) (state : value) (node_name : string)
    (self : SimpleStateSaver) (o : os) :
  let out := save_sync ev state node_name (self, o) in
  let self' := fst (fst out) in
  let o' := snd (fst out) in
  (forall path, path <> target_path self ev node_name ->
                disk o' !! path = disk o !! path)
  /\ dirs o' = dirs o
  /\ (exists line, stdout o' = stdout o ++ [line])
  /\ _executor self' = _executor self
  /\ run_dir self' = run_dir self
  /\ workflow_name self' = workflow_name self
  /\ run_id self' = run_id self.
Proof.
  cbv zeta. rewrite save_sync_unfold. cbv zeta.
  destruct (fault ev); simpl; repeat split; eauto;
    intros path Hne; rewrite lookup_insert_ne; auto.
Qed.

(** ** File names: one per sequence number *)

Lemma pretty_N_char_digit (x : N) : is_digit (pretty_N_char x) = true.
Proof. unfold pretty_N_char. repeat case_match; reflexivity. Qed.

Lemma pretty_N_go_digits (x : N) (s : string) :
  all_digits s = true -> all_digits (pretty_N_go x s) = true.
Proof.
  revert s. induction (N.lt_wf_0 x) as [x _ IH]; intros s Hs.
  destruct (decide (x = 0)%N) as [->|Hx].
  - rewrite pretty_N_go_0. exact Hs.
  - rewrite pretty_N_go_step by lia. apply IH.
    + apply N.div_lt; lia.
    + simpl. rewrite pretty_N_char_digit, Hs. reflexivity.
Qed.

Lemma pretty_N_go_length (x : N) (s : string) :
  (String.length s <= String.length (pretty_N_go x s))%nat.
Proof.
  revert s. induction (N.lt_wf_0 x) as [x _ IH]; intros s.
  destruct (decide (x = 0)%N) as [->|Hx].
  - rewrite pretty_N_go_0. lia.
  - rewrite pretty_N_go_step by lia.
    etrans; [|apply IH; apply N.div_lt; lia]. simpl. lia.
Qed.

Lemma pretty_N_go_length_pow (k : nat) (x : N) (s : string) :
  (10 ^ N.of_nat k <= x)%N ->
  (String.length s + k + 1 <= String.length (pretty_N_go x s))%nat.
Proof.
  revert x s. induction k as [|k IH]; intros x s Hx.
  - simpl in Hx. rewrite pretty_N_go_step by lia.
    etrans; [|apply pretty_N_go_length]. simpl. lia.
  - assert (Hpos : (0 < x)%N).
    { pose proof (N.pow_nonzero 10 (N.of_nat (S k))). lia. }
    rewrite pretty_N_go_step by exact Hpos.
    etrans; [|apply IH].
    + simpl. lia.
    + rewrite Nat2N.inj_succ, N.pow_succ_r' in Hx.
      apply N.div_le_lower_bound; lia.
Qed.

Lemma pretty_nonneg_digits (n : Z) : 0 <= n -> all_digits (pretty n) = true.
Proof.
  intros Hn. destruct n as [|p|p]; [reflexivity| |lia].
  unfold pretty, pretty_Z, pretty, pretty_positive, pretty, pretty_N.
  rewrite decide_False by discriminate. apply pretty_N_go_digits. reflexivity.
Qed.

Lemma pretty_length_1000 (n : Z) : 1000 <= n -> (4 <= String.length (pretty n))%nat.
Proof.
  intros Hn. destruct n as [|p|p]; try lia.
  unfold pretty, pretty_Z, pretty, pretty_positive, pretty, pretty_N.
  rewrite decide_False by discriminate.
  pose proof (pretty_N_go_length_pow 3 (N.pos p) "") as H. simpl in H.
  apply H. lia.
Qed.

Lemma zeros_digits (k : nat) : all_digits (zeros k) = true.
Proof. induction k; simpl; auto. Qed.

Lemma all_digits_app (a b : string) :
  all_digits (a +:+ b) = all_digits a && all_digits b.
Proof.
  induction a as [|c a IH]; simpl; [reflexivity|].
  rewrite IH, andb_assoc. reflexivity.
Qed.

Lemma length_app_string (a b : string) :
  String.length (a +:+ b) = (String.length a + String.length b)%nat.
Proof. induction a as [|c a IH]; simpl; [reflexivity | f_equal; exact IH]. Qed.

Lemma zeros_length (k : nat) : String.length (zeros k) = k.
Proof. induction k as [|k IH]; simpl; [reflexivity | f_equal; exact IH]. Qed.

Lemma format_03d_shape (n : Z) :
  0 <= n ->
  all_digits (format_03d n) = true /\ (3 <= String.length (format_03d n))%nat.
Proof.
  intros Hn.
  assert (Hf : format_03d n = zfill 3 (pretty n)) by (destruct n; try reflexivity; lia).
  rewrite Hf. unfold zfill. split.
  - rewrite all_digits_app, zeros_digits, pretty_nonneg_digits by exact Hn. reflexivity.
  - rewrite length_app_string, zeros_length. lia.
Qed.

Lemma compare_refl_Eq (s : string) : String.compare s s = Eq.
Proof.
  induction s as [|c s IH]; simpl; [reflexivity|].
  unfold Ascii.compare. rewrite N.compare_refl. exact IH.
Qed.

Lemma format_03d_length_999 (n : Z) :
  0 <= n <= 999 -> String.length (format_03d n) = 3%nat.
Proof.
  intros Hn. destruct (decide (n = 999)) as [->|Hne]; [reflexivity|].
  destruct (format_03d_order n 999) as (H & _ & _); lia.
Qed.

Lemma format_03d_inj (n m : Z) :
  0 <= n -> 0 <= m -> format_03d n = format_03d m -> n = m.
Proof.
  assert (Hsmall : forall a b, 0 <= a -> a < b -> b <= 999 ->
                               format_03d a <> format_03d b).
  { intros a b Ha Hab Hb Heq.
    destruct (format_03d_order a b) as (_ & _ & Hc); try lia.
    rewrite Heq, compare_refl_Eq in Hc. discriminate. }
  assert (Hmixed : forall a b, 0 <= a <= 999 -> 1000 <= b ->
                               format_03d a <> format_03d b).
  { intros a b Ha Hb Heq.
    pose proof (format_03d_length_999 a Ha) as La.
    pose proof (pretty_length_1000 b Hb) as Lb.
    assert (Hfb : format_03d b = zfill 3 (pretty b)) by (destruct b; try reflexivity; lia).
    rewrite Heq, Hfb in La. unfold zfill in La.
    rewrite length_app_string, zeros_length in La. lia. }
  intros Hn Hm Heq.
  destruct (Z_le_gt_dec n 999) as [Hn9|Hn9], (Z_le_gt_dec m 999) as [Hm9|Hm9].
  - destruct (Z.lt_trichotomy n m) as [Hlt|[Heq'|Hgt]]; [|exact Heq'|].
    + exfalso. exact (Hsmall n m Hn Hlt Hm9 Heq).
    + exfalso. apply (Hsmall m n Hm Hgt Hn9). symmetry. exact Heq.
  - exfalso. apply (Hmixed n m); [lia | lia | exact Heq].
  - exfalso. apply (Hmixed m n); [lia | lia | symmetry; exact Heq].
  - assert (Hz : forall a, 999 < a -> format_03d a = pretty a).
    { intros a Ha. pose proof (pretty_length_1000 a ltac:(lia)) as La.
      destruct a as [|p|p]; try lia. unfold format_03d, zfill.
      replace (3 - String.length (pretty (Z.pos p)))%nat with 0%nat by lia.
      reflexivity. }
    rewrite (Hz n), (Hz m) in Heq by lia. apply (inj pretty). exact Heq.
Qed.

(** Digits followed by an underscore: the digits are told by the text. *)
Lemma digits_before_underscore (a b x y : string) :
  all_digits a = true -> all_digits b = true ->
  a +:+ String "_" x = b +:+ String "_" y -> a = b.
Proof.
  revert b. induction a as [|c a IH]; intros [|d b] Ha Hb Heq; simpl in *.
  - reflexivity.
  - injection Heq as <- _. apply andb_prop in Hb as [Hd _]. discriminate.
  - injection Heq as -> _. apply andb_prop in Ha as [Hc _]. discriminate.
  - injection Heq as <- Heq. apply andb_prop in Ha as [_ Ha].
    apply andb_prop in Hb as [_ Hb]. f_equal. exact (IH b Ha Hb Heq).
Qed.

Lemma snapshot_filename_inj (n m : Z) (node1 t1 node2 t2 : string) :
  0 <= n -> 0 <= m ->
  snapshot_filename n node1 t1 = snapshot_filename m node2 t2 -> n = m.
Proof.
  intros Hn Hm Heq. unfold snapshot_filename in Heq.
  apply format_03d_inj; [exact Hn | exact Hm |].
  destruct (format_03d_shape n Hn) as [Dn _], (format_03d_shape m Hm) as [Dm _].
  exact (digits_before_underscore _ _ _ _ Dn Dm Heq).
Qed.

Lemma snapshot_filename_no_slash (n : Z) (node_name t : string) :
  starts_with_slash (snapshot_filename n node_name t) = false.
Proof.
  unfold snapshot_filename. destruct (Z_lt_le_dec n 0) as [Hneg|Hpos].
  - destruct n; try lia. reflexivity.
  - destruct (format_03d_shape n Hpos) as [Dn Ln].
    destruct (format_03d n) as [|c s]; simpl in *; [lia|].
    apply andb_prop in Dn as [Hc _]. apply bool_decide_eq_false.
    intros ->. discriminate.
Qed.

Lemma append_inv_head (r a b : string) : r +:+ a = r +:+ b -> a = b.
Proof. induction r as [|c r IH]; simpl; intros H; [exact H|]. injection H as H. auto. Qed.

(** The path of a snapshot: the run directory, a separator unless the
    directory is empty or ends with one, and the file name. *)
Lemma target_path_form (self : SimpleStateSaver) (ev : env) (node_name : string) :
  target_path self ev node_name
  = run_dir self
    +:+ (if bool_decide (run_dir self = "") || ends_with_slash (run_dir self)
         then "" else "/")
    +:+ snapshot_filename (counter self + 1) node_name (now_hms ev).
Proof.
  unfold target_path, os_path_join. rewrite snapshot_filename_no_slash.
  destruct (bool_decide (run_dir self = "") || ends_with_slash (run_dir self));
    reflexivity.
Qed.

(** Equal paths in one run directory come from equal counters. *)
Lemma target_path_same_counter (self1 self2 : SimpleStateSaver) (ev1 ev2 : env)
    (node1 node2 : string) :
  run_dir self1 = run_dir self2 ->
  0 <= counter self1 -> 0 <= counter self2 ->
  target_path self1 ev1 node1 = target_path self2 ev2 node2 ->
  counter self1 = counter self2.
Proof.
  intros Hdir H1 H2 Heq. rewrite !target_path_form, Hdir in Heq.
  do 2 apply append_inv_head in Heq.
  apply snapshot_filename_inj in Heq; lia.
Qed.

(** X5: within a run, the path of a snapshot tells its sequence number:
    two calls of [save_sync] on savers with the same run directory and
    counters that are not negative write to the same path only if the
    counters are equal, whatever the node names and the clock. *)
Theorem target_path_injective (self1 self2 : SimpleStateSaver) (ev1 ev2 : env)
    (node1 node2 : string) :
  run_dir self1 = run_dir self2 ->
  0 <= counter self1 -> 0 <= counter self2 ->
  target_path self1 ev1 node1 = target_path self2 ev2 node2 ->
  counter self1 = counter self2.
Proof.
  intros Hdir H1 H2 Heq. rewrite !target_path_form, Hdir in Heq.
  apply append_inv_head, append_inv_head in Heq.
  apply snapshot_filename_inj in Heq; lia.
Qed.

Lemma target_path_injective_witness :
  counter (mkSaver "wf" "states" "r" 41 (mkExecutor [] false) "states/wf_r")
  = counter (mkSaver "wf" "states" "r" 41 (mkExecutor [] false) "states/wf_r").
Proof.
  apply (target_path_injective
           (mkSaver "wf" "states" "r" 41 (mkExecutor [] false) "states/wf_r")
           (mkSaver "wf" "states" "r" 41 (mkExecutor [] false) "states/wf_r")
           (mkEnv "120001" "2024-01-01T12:00:01" NoFault)
           (mkEnv "120001" "2024-01-01T12:00:01" (OpenFails (Exn "OSError" "denied")))
           "a" "a"); simpl; try lia; reflexivity.
Defined.

(** ** Runs: snapshots are not overwritten *)

(** What one event does to the files. *)
Lemma step_files (h : gmap loc value) (e : event) (s : SimpleStateSaver * os) :
  let s1 := fst (step h e s) in
  run_dir (fst s1) = run_dir (fst s)
  /\ counter (fst s) <= counter (fst s1)
  /\ match snd (step h e s) with
     | None => snd s1 = snd s
     | Some x =>
         exists (ev : env) (self0 : SimpleStateSaver),
           run_dir self0 = run_dir (fst s)
           /\ counter self0 = counter (fst s)
           /\ exec_order x = counter (fst s) + 1
           /\ counter (fst s1) = counter (fst s) + 1
           /\ (forall path, path <> target_path self0 ev (exec_node x) ->
                            disk (snd s1) !! path = disk (snd s) !! path)
           /\ (forall p, exec_result x = Ok p -> p <> "" ->
                  p = target_path self0 ev (exec_node x)
                  /\ exists data,
                       disk (snd s1) !! p = Some (Complete data)
                       /\ metadata_order data = Some (exec_order x))
     end.
Proof.
  assert (Hsync : forall ev state node_name self o,
    let out := save_sync ev state node_name (self, o) in
    run_dir (fst (fst out)) = run_dir self
    /\ counter (fst (fst out)) = counter self + 1
    /\ (forall path, path <> target_path self ev node_name ->
                     disk (snd (fst out)) !! path = disk o !! path)
    /\ (forall p, snd out = Ok p -> p <> "" ->
           p = target_path self ev node_name
           /\ exists data,
                disk (snd (fst out)) !! p = Some (Complete data)
                /\ metadata_order data = Some (counter self + 1))).

  { intros ev state node_name self o. cbv zeta.
    destruct (save_sync_other_files ev state node_name self o) as (Hdir & Hdisk).
    split; [exact Hdir|]. split; [apply save_sync_counter|]. split; [exact Hdisk|].
    intros p Hp Hne. destruct (fault ev) eqn:Hf.
    - destruct (save_sync_file_order ev state node_name self o Hf)
        as (data & Hd & Ho & _).
      rewrite save_sync_unfold in Hp. cbv zeta in Hp. rewrite Hf in Hp.
      simpl in Hp. injection Hp as <-. split; [reflexivity|].
      exists data. auto.
    - rewrite save_sync_unfold in Hp. cbv zeta in Hp. rewrite Hf in Hp.
      simpl in Hp. injection Hp as <-. contradiction.
    - rewrite save_sync_unfold in Hp. cbv zeta in Hp. rewrite Hf in Hp.
      simpl in Hp. injection Hp as <-. contradiction. }
  destruct s as [self o]. cbv zeta.
  destruct e as [state node_name|ev|state node_name ev]; simpl.
  - unfold save_background, zoom, submit.
    destruct (shut_down (_executor self)); simpl; repeat split; lia.
  - unfold worker_step. simpl.
    destruct (work_queue (_executor self)) as [|j rest]; simpl;
      [repeat split; lia|].
    match goal with
    | |- context [save_sync ?a ?b ?c (?d, ?f)] =>
        pose proof (Hsync a b c d f) as Hx; cbv zeta in Hx;
        destruct (save_sync a b c (d, f)) as [s' r]
    end.
    simpl in *. destruct Hx as (Hd & Hc & Hfr & Hp).
    split; [exact Hd|]. split; [lia|].
    eexists ev, _. split; [reflexivity|]. split; [reflexivity|].
    split; [exact Hc|]. split; [exact Hc|]. split; [exact Hfr|].
    intros p Hr Hne. destruct (Hp p Hr Hne) as (Hpath & data & H1 & H2).
    split; [exact Hpath|]. exists data. rewrite Hc. auto.
  - pose proof (Hsync ev (deref h state) node_name self o) as Hx. cbv zeta in Hx.
    destruct (save_sync ev (deref h state) node_name (self, o)) as [s' r].
    simpl in *. destruct Hx as (Hd & Hc & Hfr & Hp).
    split; [exact Hd|]. split; [lia|].
    exists ev, self. split; [reflexivity|]. split; [reflexivity|].
    split; [exact Hc|]. split; [exact Hc|]. split; [exact Hfr|].
    intros p Hr Hne. destruct (Hp p Hr Hne) as (Hpath & data & H1 & H2).
    split; [exact Hpath|]. exists data. rewrite Hc. auto.
Qed.

(** A file of the run written under an earlier number stays as it is. *)
Lemma run_keeps_file (h : gmap loc value) (sched : list event)
    (s : SimpleStateSaver * os) (self0 : SimpleStateSaver) (ev : env)
    (node_name : string) (f : file) :
  run_dir self0 = run_dir (fst s) ->
  0 <= counter self0 -> counter self0 < counter (fst s) ->
  disk (snd s) !! target_path self0 ev node_name = Some f ->
  disk (snd (fst (run h sched s))) !! target_path self0 ev node_name = Some f.
Proof.
  revert s. induction sched as [|e sched IH]; intros s Hdir H0 Hlt Hf; [exact Hf|].
  cbn [run]. pose proof (step_files h e s) as Hstep. cbv zeta in Hstep.
  destruct (step h e s) as [s1 x]. simpl in Hstep.
  destruct Hstep as (Hd1 & Hc1 & Hx).
  specialize (IH s1). destruct (run h sched s1) as [s2 xs]. simpl in IH |- *.
  apply IH; [congruence | exact H0 | lia |].
  destruct x as [x|]; [|rewrite Hx; exact Hf].
  destruct Hx as (ev' & self' & Hd' & Hc' & _ & _ & Hfr & _).
  rewrite Hfr; [exact Hf|]. intros Heq.
  apply target_path_same_counter in Heq; [lia | congruence | exact H0 | lia].
Qed.

(** X6: in a run that starts with a counter that is not negative, every
    snapshot [save_sync] reported as written (it returned a path, not the
    empty string) is on the disk at that path when the run ends, in full
    and carrying its own sequence number: no later call of the run
    overwrites or truncates it, whether that call succeeds or fails. *)
Theorem snapshots_persist (h : gmap loc value) (sched : list event)
    (s : SimpleStateSaver * os) (x : execution) (p : string) :
  0 <= counter (fst s) ->
  In x (snd (run h sched s)) ->
  exec_result x = Ok p -> p <> "" ->
  exists data,
    disk (snd (fst (run h sched s))) !! p = Some (Complete data)
    /\ metadata_order data = Some (exec_order x).
Proof.
  revert s. induction sched as [|e sched IH]; intros s Hc Hin Hr Hne; [destruct Hin|].
  cbn [run] in *. pose proof (step_files h e s) as Hstep. cbv zeta in Hstep.
  pose proof (run_keeps_file h sched (fst (step h e s))) as Hkeep.
  destruct (step h e s) as [s1 y]. simpl in Hstep, Hkeep.
  destruct Hstep as (Hd1 & Hc1 & Hy).
  specialize (IH s1). destruct (run h sched s1) as [s2 xs]. simpl in *.
  assert (Hrest : In x xs ->
            exists data, disk (snd s2) !! p = Some (Complete data)
                         /\ metadata_order data = Some (exec_order x)).
  { intros Hx. apply IH; [lia | exact Hx | exact Hr | exact Hne]. }
  destruct y as [y|]; [|exact (Hrest Hin)].
  destruct Hin as [<-|Hin]; [|exact (Hrest Hin)].
  destruct Hy as (ev & self0 & Hd0 & Hc0 & _ & Hc1' & _ & Hp).
  destruct (Hp p Hr Hne) as (-> & data & Hdisk & Hord).
  exists data. split; [|exact Hord].
  apply Hkeep; [congruence | lia | lia | exact Hdisk].
Qed.

Lemma snapshots_persist_witness :
  let ok := mkEnv "120001" "2024-01-01T12:00:01" NoFault in
  let full := mkEnv "120001" "2024-01-01T12:00:01"
                (DumpFails (Exn "OSError" "No space left on device")) in
  let sched := [Direct 0%nat "a" ok; Direct 0%nat "a" full; Direct 0%nat "a" ok] in
  let s := (Sample.saver, mkOs [] ∅ []) in
  exists data,
    disk (snd (fst (run ∅ sched s))) !! "states/wf_r/001_a_120001.json"
    = Some (Complete data)
    /\ metadata_order data = Some 1.
Proof.
  intros ok full sched s.
  apply (snapshots_persist ∅ sched s
           (mkExecution None "a" 1 (Ok "states/wf_r/001_a_120001.json"))
           "states/wf_r/001_a_120001.json").
  - simpl. lia.
  - vm_compute. left. reflexivity.
  - reflexivity.
  - discriminate.
Defined.

(** ** Where the files go *)

Lemma prefix_append (a b : string) : String.prefix a (a +:+ b) = true.
Proof.
  induction a as [|c a IH]; simpl; [destruct b; reflexivity|].
  destruct (ascii_dec c c); [exact IH | contradiction].
Qed.

(** X7: every path [save_sync] writes to begins with the run directory of
    the saver: the file name never starts with a slash, so that joining
    never drops the directory. *)
Theorem target_path_in_run_dir (self : SimpleStateSaver) (ev : env)
    (node_name : string) :
  String.prefix (run_dir self) (target_path self ev node_name) = true.
Proof. rewrite target_path_form. apply prefix_append. Qed.

(** X8: what [init_state_saver] leaves.  When a directory cannot be made
    the call raises that failure, and the global saver, the files and the
    output are as before: there is no fallback.  Otherwise the global is
    the new saver, with the counter at 0 and an open, empty executor; its
    run directory is [base_dir] joined with
    [<workflow_name>_<stamp>_<first 8 characters of the uuid>], and both
    directories were made. *)
Theorem init_state_saver_outcome (ie : init_env) (workflow base : string)
    (w : world) :
  let out := init_state_saver ie workflow base w in
  let run_id := now_stamp ie +:+ "_" +:+ substring 0 8 (uuid4 ie) in
  let run_dir := os_path_join base (workflow +:+ "_" +:+ run_id) in
  heap (fst out) = heap w
  /\ disk (the_os (fst out)) = disk (the_os w)
  /\ match snd out with
     | Raise e =>
         (mkdir_fault ie base = Some e
          \/ mkdir_fault ie base = None /\ mkdir_fault ie run_dir = Some e)
         /\ _saver (fst out) = _saver w
         /\ stdout (the_os (fst out)) = stdout (the_os w)
     | Ok self =>
         mkdir_fault ie base = None /\ mkdir_fault ie run_dir = None
         /\ _saver (fst out) = Some self
         /\ self = mkSaver workflow base run_id 0 (mkExecutor [] false) run_dir
         /\ dirs (the_os (fst out)) = run_dir :: base :: dirs (the_os w)
         /\ stdout (the_os (fst out))
            = stdout (the_os w) ++ ["[StateSaver] Saving states to: " +:+ run_dir]
     end.
Proof.
  cbv zeta. unfold init_state_saver, __init__, bind, makedirs, print, modify, raise, ret.
  destruct (mkdir_fault ie base) as [e|] eqn:H1; simpl.
  - repeat split; auto.
  - destruct (mkdir_fault ie
                (os_path_join base
                   (workflow +:+ "_" +:+ now_stamp ie +:+ "_"
                    +:+ substring 0 8 (uuid4 ie)))) as [e|] eqn:H2;
      simpl; repeat split; auto.
Qed.

(** ** The wrapper on its other paths *)

(** X9: with no saver configured the wrapper is the node function: it
    returns or raises what the node function does, leaves the heap as the
    node function left it, and records nothing. *)
Theorem wrapper_without_saver (node_name : option string) (func : node_function)
    (state : loc) (w : world) :
  _saver w = None ->
  wrapper node_name func state w
  = (mkWorld (fst (call func state (heap w))) (the_os w) None,
     snd (call func state (heap w))).
Proof.
  intros Hs. unfold wrapper, try_except, bind, on_heap, zoom, if_saver, ret. simpl.
  destruct (call func state (heap w)) as [h1 [r|e]]; simpl; rewrite ?Hs.
  - reflexivity.
  - rewrite on_exception_unfold. simpl. reflexivity.
Qed.

Lemma wrapper_without_saver_witness :
  wrapper None Sample.failing 0%nat (Sample.dict_world None)
  = (mkWorld (fst (call Sample.failing 0%nat (heap (Sample.dict_world None))))
       (the_os (Sample.dict_world None)) None,
     snd (call Sample.failing 0%nat (heap (Sample.dict_world None)))).
Proof.
  apply (wrapper_without_saver None Sample.failing 0%nat (Sample.dict_world None)).
  reflexivity.
Defined.

(** What the wrapper does when the node function returns. *)
Lemma wrapper_on_success (node_name : option string) (func : node_function)
    (state : loc) (w : world) (h1 : gmap loc value) (r : loc)
    (self : SimpleStateSaver) :
  call func state (heap w) = (h1, Ok r) ->
  _saver w = Some self ->
  wrapper node_name func state w =
  if shut_down (_executor self)
  then on_exception (py_or node_name (__name__ func)) state
         (Exn "RuntimeError" "cannot schedule new futures after shutdown")
         (mkWorld h1 (the_os w) (Some self))
  else (mkWorld h1 (the_os w)
          (Some (set_executor
                   (mkExecutor (work_queue (_executor self)
                                  ++ [Job r (py_or node_name (__name__ func))]) false)
                   self)),
        Ok r).
Proof.
  intros Hcall Hs.
  unfold wrapper, try_except, bind, on_heap, zoom, if_saver, ret,
    _saver_save_background. simpl. rewrite Hcall. simpl. rewrite Hs.
  unfold save_background, zoom, submit.
  destruct (shut_down (_executor self)) eqn:Hsd; simpl; [|reflexivity].
  destruct self; reflexivity.
Qed.

(** X10: when the node function returns but the executor of the saver
    was shut down, the failure of the submission is caught by the
    wrapper's own handler as if the node function had failed: the wrapper
    raises [RuntimeError], the state the node function returned is lost
    to the caller, an error state is made for the state the node function
    was called with, and nothing is queued. *)
Theorem wrapper_success_after_shutdown (node_name : option string)
    (func : node_function) (state : loc) (w : world) (h1 : gmap loc value)
    (r : loc) (self : SimpleStateSaver) :
  call func state (heap w) = (h1, Ok r) ->
  _saver w = Some self ->
  shut_down (_executor self) = true ->
  let out := wrapper node_name func state w in
  let failure := Exn "RuntimeError" "cannot schedule new futures after shutdown" in
  snd out = Raise failure
  /\ _saver (fst out) = Some self
  /\ heap (fst out)
     = <[fresh (dom h1) :=
           VDict (dict_setitem (error_entries (deref h1 state)) "_error"
                    (VStr (exn_msg failure)))]> h1.
Proof.
  intros Hcall Hs Hsd. cbv zeta.
  rewrite (wrapper_on_success _ _ _ _ _ _ _ Hcall Hs), Hsd.
  rewrite on_exception_unfold. simpl. rewrite Hsd. simpl. auto.
Qed.

Lemma wrapper_success_after_shutdown_witness :
  let func := mkNode "launch_browser_node" (fun state => ret state) in
  let w := Sample.dict_world (Some Sample.closed_saver) in
  let out := wrapper (Some "launch_browser") func 0%nat w in
  let failure := Exn "RuntimeError" "cannot schedule new futures after shutdown" in
  snd out = Raise failure
  /\ _saver (fst out) = Some Sample.closed_saver
  /\ heap (fst out)
     = <[fresh (dom (heap w)) :=
           VDict (dict_setitem (error_entries (deref (heap w) 0%nat)) "_error"
                    (VStr (exn_msg failure)))]> (heap w).
Proof.
  intros func w.
  apply (wrapper_success_after_shutdown (Some "launch_browser") func 0%nat w (heap w)
           0%nat Sample.closed_saver); reflexivity.
Defined.

Lemma append_empty_r (s : string) : s +:+ "" = s.
Proof.
  induction s as [|c s IH]; [reflexivity|].
  change (String c (s +:+ "") = String c s). rewrite IH. reflexivity.
Qed.

(** One call under a saver whose executor is open. *)
Lemma wrapper_open (node_name : option string) (func : node_function)
    (state : loc) (w : world) (self : SimpleStateSaver) :
  _saver w = Some self ->
  shut_down (_executor self) = false ->
  let out := wrapper node_name func state w in
  exists j,
    _saver (fst out)
    = Some (set_executor (mkExecutor (work_queue (_executor self) ++ [j]) false) self)
    /\ the_os (fst out) = the_os w
    /\ snd out = snd (call func state (heap w))
    /\ job_node j = recorded_name (node_name, func, state) (snd out)
    /\ records_result j (snd out).
Proof.
  intros Hs Hopen. cbv zeta.
  destruct (call func state (heap w)) as [h1 [r|e]] eqn:Hcall.
  - rewrite (wrapper_on_success _ _ _ _ _ _ _ Hcall Hs), Hopen. simpl.
    eexists. split; [reflexivity|]. unfold recorded_name. simpl.
    rewrite append_empty_r. repeat split; reflexivity.
  - rewrite (wrapper_on_failure _ _ _ _ _ _ Hcall), Hs. cbv zeta. rewrite Hopen.
    simpl. eexists. split; [reflexivity|]. repeat split; reflexivity.
Qed.

(** X11: under a saver whose executor is open, every call of a wrapped
    node function queues exactly one job, in the order of the calls: under
    the name given to [save_state], or the name of the function when none
    or the empty string was given, followed by [_ERROR] when the function
    raised.  The job of a call that returned holds the state returned.
    The calls leave the counter, the files and the output alone: nothing
    is written before the worker runs. *)
Theorem every_call_queues_one_job (calls : list invocation) (w : world)
    (self : SimpleStateSaver) :
  _saver w = Some self ->
  shut_down (_executor self) = false ->
  let out := invoke_all calls w in
  exists (self' : SimpleStateSaver) (jobs : list job),
    _saver (fst out) = Some self'
    /\ work_queue (_executor self') = work_queue (_executor self) ++ jobs
    /\ shut_down (_executor self') = false
    /\ counter self' = counter self
    /\ the_os (fst out) = the_os w
    /\ map job_node jobs = zip_with recorded_name calls (snd out)
    /\ Forall2 records_result jobs (snd out)
    /\ length (snd out) = length calls.
Proof.
  revert w self. induction calls as [|[[node_name func] state] calls IH];
    intros w self Hs Hopen; cbv zeta.
  - exists self, []. simpl. rewrite app_nil_r. repeat split; auto.
  - cbn [invoke_all].
    destruct (wrapper_open node_name func state w self Hs Hopen)
      as (j & Hs1 & Hos1 & Hr1 & Hn1 & Hj1).
    destruct (wrapper node_name func state w) as [w1 r]. simpl in *.
    specialize (IH w1 _ Hs1 eq_refl). cbv zeta in IH.
    destruct IH as (self' & jobs & Hs2 & Hq2 & Hopen2 & Hc2 & Hos2 & Hn2 & Hj2 & Hl2).
    destruct (invoke_all calls w1) as [w2 rs]. simpl in *.
    exists self', (j :: jobs). split; [exact Hs2|].
    split; [rewrite Hq2, <- app_assoc; reflexivity|].
    split; [exact Hopen2|]. split; [exact Hc2|]. split; [congruence|].
    split; [simpl; rewrite Hn2; f_equal; exact Hn1|].
    split; [constructor; assumption | congruence].
Qed.

Lemma every_call_queues_one_job_witness :
  let ok := mkNode "launch_browser_node" (fun state => ret state) in
  let calls := [(Some "launch_browser", ok, 0%nat); (Some "", Sample.failing, 0%nat)] in
  let w := Sample.dict_world (Some Sample.saver) in
  let out := invoke_all calls w in
  exists (self' : SimpleStateSaver) (jobs : list job),
    _saver (fst out) = Some self'
    /\ work_queue (_executor self') = work_queue (_executor Sample.saver) ++ jobs
    /\ shut_down (_executor self') = false
    /\ counter self' = counter Sample.saver
    /\ the_os (fst out) = the_os w
    /\ map job_node jobs = zip_with recorded_name calls (snd out)
    /\ Forall2 records_result jobs (snd out)
    /\ length (snd out) = length calls.
Proof.
  intros ok calls w.
  apply (every_call_queues_one_job calls w Sample.saver); reflexivity.
Defined.

Example two_calls_queued :
  let ok := mkNode "launch_browser_node" (fun state => ret state) in
  let calls := [(Some "launch_browser", ok, 0%nat); (Some "", Sample.failing, 0%nat)] in
  let out := invoke_all calls (Sample.dict_world (Some Sample.saver)) in
  option_map (fun sv => work_queue (_executor sv)) (_saver (fst out))
  = Some [Job 0%nat "launch_browser"; Job 1%nat "navigate_page_ERROR"]
  /\ snd out = [Ok 0%nat; Raise Sample.boom].
Proof. vm_compute. split; reflexivity. Qed.

(** ** From the call to the file *)

(** A turn of the worker when a job is queued and the write goes through. *)
Lemma world_worker_step_writes (w : world) (self : SimpleStateSaver) (j : job)
    (rest : list job) (ev : env) :
  _saver w = Some self ->
  work_queue (_executor self) = j :: rest ->
  fault ev = NoFault ->
  let out := world_worker_step ev w in
  snd out = Some (j, Ok (target_path self ev (job_node j)))
  /\ heap (fst out) = heap w
  /\ exists data,
       disk (the_os (fst out)) !! target_path self ev (job_node j)
       = Some (Complete data)
       /\ metadata_order data = Some (counter self + 1)
       /\ envelope_state data
          = Some (_clean_for_json (deref (heap w) (job_state j))).
Proof.
  intros Hs Hq Hf. cbv zeta. unfold world_worker_step, worker_step. rewrite Hs. simpl.
  rewrite Hq. rewrite save_sync_unfold. cbv zeta. rewrite Hf. simpl.
  split; [reflexivity|]. split; [reflexivity|].
  eexists. split; [apply lookup_insert_eq|]. split; reflexivity.
Qed.

(** X12: the snapshot shows the state as it is when the worker runs the
    job, not as it was when the node function returned: the job holds a
    reference, and whatever the object it names holds at the worker's
    turn, changed or not since the call, is what is coerced and written. *)
Theorem snapshot_taken_when_worker_runs (node_name : option string)
    (func : node_function) (state : loc) (w : world) (h1 : gmap loc value)
    (r : loc) (self : SimpleStateSaver) (ev : env) (later : gmap loc value) :
  call func state (heap w) = (h1, Ok r) ->
  _saver w = Some self ->
  shut_down (_executor self) = false ->
  work_queue (_executor self) = [] ->
  fault ev = NoFault ->
  let w1 := fst (wrapper node_name func state w) in
  let w2 := fst (world_worker_step ev (with_heap later w1)) in
  exists data,
    disk (the_os w2) !! target_path self ev (py_or node_name (__name__ func))
    = Some (Complete data)
    /\ metadata_order data = Some (counter self + 1)
    /\ envelope_state data = Some (_clean_for_json (deref later r)).
Proof.
  intros Hcall Hs Hopen Hq Hf. cbv zeta.
  rewrite (wrapper_on_success _ _ _ _ _ _ _ Hcall Hs), Hopen, Hq. simpl.
  match goal with
  | |- context [world_worker_step ev ?w1] =>
      destruct (world_worker_step_writes w1 _ (Job r (py_or node_name (__name__ func)))
                  [] ev eq_refl eq_refl Hf) as (_ & _ & data & Hd & Ho & Hst)
  end.
  exists data. auto.
Qed.

Lemma snapshot_taken_when_worker_runs_witness :
  let func := mkNode "launch_browser_node" (fun state => ret state) in
  let w := Sample.dict_world (Some Sample.saver) in
  let ev := mkEnv "120001" "2024-01-01T12:00:01" NoFault in
  let later : gmap loc value := {[ 0%nat := VDict [(KStr "a", VInt 2)] ]} in
  let w1 := fst (wrapper (Some "launch_browser") func 0%nat w) in
  let w2 := fst (world_worker_step ev (with_heap later w1)) in
  exists data,
    disk (the_os w2)
      !! target_path Sample.saver ev (py_or (Some "launch_browser") (__name__ func))
    = Some (Complete data)
    /\ metadata_order data = Some (counter Sample.saver + 1)
    /\ envelope_state data = Some (_clean_for_json (deref later 0%nat)).
Proof.
  intros func w ev later.
  apply (snapshot_taken_when_worker_runs (Some "launch_browser") func 0%nat w (heap w)
           0%nat Sample.saver ev later); reflexivity.
Defined.

(** ** The error snapshot in the file *)

Lemma last_with_text_in (s : string) (es : list (key * value)) (k : key) (v : value) :
  In (k, v) es -> py_str_key k = s -> is_Some (last_with_text s es).
Proof.
  induction es as [|e es IH]; intros Hin Hk; [destruct Hin|]. simpl.
  destruct (last_with_text s es) as [x|] eqn:E; [eauto|].
  destruct Hin as [->|Hin].
  - simpl. rewrite bool_decide_eq_true_2 by exact Hk. eauto.
  - destruct (IH Hin Hk) as [x Hx]. discriminate.
Qed.

Lemma dict_setitem_in {V : Type} (d : list (key * V)) (k : string) (v : V) :
  In (KStr k, v) (dict_setitem d k v).
Proof.
  induction d as [|[q x] d IH]; simpl; [left; reflexivity|].
  destruct (key_is k q) eqn:E.
  - apply key_is_true in E. subst q. left. reflexivity.
  - right. exact IH.
Qed.

Lemma last_with_text_none (s : string) (es : list (key * value)) :
  Forall (fun e => py_str_key (fst e) <> s) es -> last_with_text s es = None.
Proof.
  induction 1 as [|e es He _ IH]; simpl; [reflexivity|].
  rewrite IH. rewrite bool_decide_eq_false_2 by exact He. reflexivity.
Qed.

(** In a dictionary whose keys are pairwise different strings, the value
    set under a string is the one found under its text. *)
Lemma last_with_text_setitem (d : list (key * value)) (k : string) (v : value) :
  NoDup (map fst d) ->
  Forall (fun e => is_str_key (fst e) = true) d ->
  last_with_text k (dict_setitem d k v) = Some v.
Proof.
  induction d as [|[q x] d IH]; intros Hnd Hstr; simpl.
  - rewrite bool_decide_eq_true_2; reflexivity.
  - apply NoDup_cons in Hnd as [Hq Hnd]. apply Forall_cons in Hstr as [Hqs Hstr].
    destruct (key_is k q) eqn:E; simpl.
    + apply key_is_true in E. subst q.
      rewrite last_with_text_none, bool_decide_eq_true_2; [reflexivity..|].
      rewrite List.Forall_forall in Hstr |- *. intros [q' x'] Hin Heq.
      specialize (Hstr _ Hin). simpl in *. apply str_key_text in Hstr.
      apply Hq. apply list_elem_of_In, in_map_iff.
      exists (q', x'). split; [|exact Hin]. simpl. congruence.
    + rewrite (IH Hnd Hstr). reflexivity.
Qed.

(** X13: when the node function raises and the error snapshot is written,
    the state in the file has the key ["_error"], whatever the state the
    function was called with.  When that state is no dictionary, or a
    dictionary whose keys are strings, the value under ["_error"] is the
    text of the failure. *)
Theorem error_snapshot_in_file (node_name : option string) (func : node_function)
    (state : loc) (w : world) (h1 : gmap loc value) (e : exn)
    (self : SimpleStateSaver) (ev : env) :
  call func state (heap w) = (h1, Raise e) ->
  _saver w = Some self ->
  shut_down (_executor self) = false ->
  work_queue (_executor self) = [] ->
  fault ev = NoFault ->
  let w1 := fst (wrapper node_name func state w) in
  let w2 := fst (world_worker_step ev w1) in
  let entries := error_entries (deref h1 state) in
  exists data st,
    disk (the_os w2)
      !! target_path self ev (py_or node_name (__name__ func) +:+ "_ERROR")
    = Some (Complete data)
    /\ envelope_state data = Some st
    /\ is_Some (dict_get (entries_of st) "_error")
    /\ (NoDup (map fst entries) ->
        Forall (fun en => is_str_key (fst en) = true) entries ->
        dict_get (entries_of st) "_error" = Some (VStr (exn_msg e))).
Proof.
  intros Hcall Hs Hopen Hq Hf. cbv zeta.
  rewrite (wrapper_on_failure _ _ _ _ _ _ Hcall), Hs. cbv zeta. rewrite Hopen, Hq.
  simpl.
  match goal with
  | |- context [world_worker_step ev ?w1] =>
      destruct (world_worker_step_writes w1 _
                  (Job (fresh (dom h1)) (py_or node_name (__name__ func) +:+ "_ERROR"))
                  [] ev eq_refl eq_refl Hf) as (_ & _ & data & Hd & _ & Hst)
  end.
  simpl in Hd, Hst. unfold deref in Hst at 1. rewrite lookup_insert_eq in Hst.
  simpl in Hst.
  exists data. eexists. split; [exact Hd|]. split; [exact Hst|].
  simpl. rewrite !fold_setitem_lookup. split.
  - destruct (last_with_text_in "_error"
                (dict_setitem (error_entries (deref h1 state)) "_error"
                   (VStr (exn_msg e)))
                (KStr "_error") (VStr (exn_msg e))) as [x Hx];
      [apply dict_setitem_in | reflexivity |].
    rewrite Hx. eauto.
  - intros Hnd Hstr. rewrite last_with_text_setitem by assumption. reflexivity.
Qed.

Lemma error_snapshot_in_file_witness :
  let w := Sample.dict_world (Some Sample.saver) in
  let ev := mkEnv "120001" "2024-01-01T12:00:01" NoFault in
  let w1 := fst (wrapper None Sample.failing 0%nat w) in
  let w2 := fst (world_worker_step ev w1) in
  exists data st,
    disk (the_os w2) !! "states/wf_r/001_navigate_page_ERROR_120001.json"
    = Some (Complete data)
    /\ envelope_state data = Some st
    /\ dict_get (entries_of st) "_error" = Some (VStr "boom").
Proof.
  intros w ev.
  destruct (error_snapshot_in_file None Sample.failing 0%nat w (heap w) Sample.boom
              Sample.saver ev eq_refl eq_refl eq_refl eq_refl eq_refl)
    as (data & st & Hd & Hst & _ & Hmsg).
  exists data, st. split; [exact Hd|]. split; [exact Hst|].
  apply Hmsg.
  - apply NoDup_cons. split; [apply not_elem_of_nil | apply NoDup_nil_2].
  - repeat constructor.
Defined.

(** ** From the calls to the numbered files *)

(** The jobs a sequence of calls queues under an open executor. *)
Lemma invoke_all_open (calls : list invocation) (w : world)
    (self : SimpleStateSaver) :
  _saver w = Some self ->
  shut_down (_executor self) = false ->
  exists jobs : list job,
    _saver (fst (invoke_all calls w))
    = Some (set_executor (mkExecutor (work_queue (_executor self) ++ jobs) false) self)
    /\ the_os (fst (invoke_all calls w)) = the_os w
    /\ map job_node jobs = zip_with recorded_name calls (snd (invoke_all calls w))
    /\ Forall2 records_result jobs (snd (invoke_all calls w)).
Proof.
  revert w self. induction calls as [|[[node_name func] state] calls IH];
    intros w self Hs Hopen.
  - exists []. simpl. rewrite app_nil_r, Hs.
    destruct self as [a b c d [q sd] f]. simpl in *. subst.
    repeat split; auto.
  - cbn [invoke_all].
    destruct (wrapper_open node_name func state w self Hs Hopen)
      as (j & Hs1 & Hos1 & Hr1 & Hn1 & Hj1).
    destruct (wrapper node_name func state w) as [w1 r]. simpl in *.
    destruct (IH w1 _ Hs1 eq_refl) as (jobs & Hs2 & Hos2 & Hn2 & Hj2).
    destruct (invoke_all calls w1) as [w2 rs]. simpl in *.
    exists (j :: jobs). split; [rewrite Hs2, <- app_assoc; reflexivity|].
    split; [congruence|].
    split; [simpl; rewrite Hn2; f_equal; exact Hn1 | constructor; assumption].
Qed.

(** While a saver is configured, the worker's turns in the process are
    the [Work] events of a run on the saver and the operating system. *)
Lemma drain_as_run (evs : list env) (w : world) (self : SimpleStateSaver) :
  _saver w = Some self ->
  drain evs w
  = mkWorld (heap w)
      (snd (fst (run (heap w) (map Work evs) (self, the_os w))))
      (Some (fst (fst (run (heap w) (map Work evs) (self, the_os w))))).
Proof.
  revert w self. induction evs as [|ev evs IH]; intros w self Hs.
  - simpl. destruct w. simpl in *. subst. reflexivity.
  - change (drain (ev :: evs) w) with (drain evs (fst (world_worker_step ev w))).
    cbn [map run step].
    assert (Hw : world_worker_step ev w
                 = (mkWorld (heap w) (snd (fst (worker_step (heap w) ev (self, the_os w))))
                      (Some (fst (fst (worker_step (heap w) ev (self, the_os w))))),
                    snd (worker_step (heap w) ev (self, the_os w)))).
    { unfold world_worker_step. rewrite Hs.
      destruct (worker_step (heap w) ev (self, the_os w)) as [[self1 o1] x].
      reflexivity. }
    rewrite Hw. cbn [fst].
    destruct (worker_step (heap w) ev (self, the_os w)) as [[self1 o1] x].
    cbn [fst snd].
    rewrite (IH (mkWorld (heap w) o1 (Some self1)) self1 eq_refl). cbn [heap the_os].
    destruct x as [[j r]|]; destruct (run (heap w) (map Work evs) (self1, o1));
      reflexivity.
Qed.

(** The worker drains a queue into files numbered from the counter on. *)
Lemma work_run_files (h : gmap loc value) (jobs : list job) (evs : list env)
    (s : SimpleStateSaver * os) (i : nat) (j : job) (ev : env) :
  work_queue (_executor (fst s)) = jobs ->
  0 <= counter (fst s) ->
  length evs = length jobs ->
  Forall (fun ev => fault ev = NoFault) evs ->
  jobs !! i = Some j -> evs !! i = Some ev ->
  exists data,
    disk (snd (fst (run h (map Work evs) s)))
      !! os_path_join (run_dir (fst s))
           (snapshot_filename (counter (fst s) + 1 + Z.of_nat i) (job_node j)
              (now_hms ev))
    = Some (Complete data)
    /\ metadata_order data = Some (counter (fst s) + 1 + Z.of_nat i)
    /\ envelope_state data = Some (_clean_for_json (deref h (job_state j))).
Proof.
  revert evs s i. induction jobs as [|j0 rest IH]; intros evs s i Hq Hc Hlen Hnf Hj Hev;
    [discriminate|].
  destruct evs as [|ev0 evs]; [discriminate|].
  apply Forall_cons in Hnf as [Hf0 Hnf]. injection Hlen as Hlen.
  destruct s as [self o]. simpl in Hq, Hc.
  set (self0 := set_executor (mkExecutor rest (shut_down (_executor self))) self).
  cbn [map run step]. unfold worker_step. cbn [fst snd]. rewrite Hq. fold self0.
  pose proof (save_sync_counter ev0 (deref h (job_state j0)) (job_node j0) self0 o) as Hc1.
  pose proof (save_sync_executor ev0 (deref h (job_state j0)) (job_node j0) self0 o) as He1.
  destruct (save_sync_other_files ev0 (deref h (job_state j0)) (job_node j0) self0 o)
    as (Hd1 & _).
  destruct (save_sync_file_order ev0 (deref h (job_state j0)) (job_node j0) self0 o Hf0)
    as (data0 & Hfile & Hord & Hst).
  destruct (save_sync ev0 (deref h (job_state j0)) (job_node j0) (self0, o))
    as [s1 r1] eqn:Hsync.
  cbn [fst snd] in *.
  pose proof (run_keeps_file h (map Work evs) s1 self0 ev0 (job_node j0)
                (Complete data0)) as Hkeep.
  specialize (IH evs s1).
  destruct (run h (map Work evs) s1) as [s2 xs]. cbn [fst snd] in *.
  destruct i as [|i].
  - injection Hj as <-. injection Hev as <-.
    exists data0. rewrite Z.add_0_r. split; [|split; [exact Hord | exact Hst]].
    apply Hkeep; [congruence | exact Hc | simpl in Hc1; simpl; lia | exact Hfile].
  - simpl in Hj, Hev.
    destruct (IH i) as (data & Hdisk & Ho & Hs); try assumption.
    + rewrite He1. reflexivity.
    + simpl in Hc1. lia.
    + exists data. rewrite Hd1, Hc1 in Hdisk. rewrite Hc1 in Ho. simpl in Hdisk, Ho.
      replace (counter self + 1 + Z.of_nat (S i))
        with (counter self + 1 + 1 + Z.of_nat i) by lia.
      auto.
Qed.

Lemma invoke_all_length (calls : list invocation) (w : world) :
  length (snd (invoke_all calls w)) = length calls.
Proof.
  revert w. induction calls as [|[[node_name func] state] calls IH]; intros w;
    [reflexivity|].
  cbn [invoke_all]. destruct (wrapper node_name func state w) as [w1 r].
  specialize (IH w1). destruct (invoke_all calls w1) as [w2 rs]. simpl in *. lia.
Qed.

(** X14: from the calls to the files.  Under a saver with an open, empty
    executor and a counter that is not negative, after any sequence of
    calls of wrapped node functions and as many turns of the worker, with
    the writes going through, the call number i (from 0) has its snapshot
    in the run directory, in full, under the sequence number
    [counter + 1 + i] and the name it was recorded under: the files are
    numbered in the order of the calls.  For a call that returned, the
    state in the file is the coercion of the state returned. *)
Theorem calls_end_in_numbered_files (calls : list invocation) (w : world)
    (self : SimpleStateSaver) (evs : list env) (i : nat) (c : invocation)
    (r : result loc) (ev : env) :
  _saver w = Some self ->
  shut_down (_executor self) = false ->
  work_queue (_executor self) = [] ->
  0 <= counter self ->
  length evs = length calls ->
  Forall (fun ev => fault ev = NoFault) evs ->
  calls !! i = Some c ->
  snd (invoke_all calls w) !! i = Some r ->
  evs !! i = Some ev ->
  let w1 := fst (invoke_all calls w) in
  let w2 := drain evs w1 in
  exists data,
    disk (the_os w2)
      !! os_path_join (run_dir self)
           (snapshot_filename (counter self + 1 + Z.of_nat i) (recorded_name c r)
              (now_hms ev))
    = Some (Complete data)
    /\ metadata_order data = Some (counter self + 1 + Z.of_nat i)
    /\ (forall l, r = Ok l ->
                  envelope_state data = Some (_clean_for_json (deref (heap w1) l))).
Proof.
  intros Hs Hopen Hq Hc Hlen Hnf Hci Hri Hei. cbv zeta.
  destruct (invoke_all_open calls w self Hs Hopen) as (jobs & Hs1 & Hos1 & Hn & Hrec).
  pose proof (invoke_all_length calls w) as Hl.
  rewrite Hq in Hs1. simpl in Hs1.
  assert (Hjl : length jobs = length calls).
  { apply Forall2_length in Hrec. lia. }
  destruct (lookup_lt_is_Some_2 jobs i) as [j Hj].
  { rewrite Hjl. eapply lookup_lt_Some. exact Hci. }
  assert (Hname : job_node j = recorded_name c r).
  { assert (Hm : map job_node jobs !! i = Some (job_node j)).
    { change (map job_node jobs) with (job_node <$> jobs).
      rewrite list_lookup_fmap, Hj. reflexivity. }
    rewrite Hn in Hm. apply lookup_zip_with_Some in Hm as (c' & r' & Hx & Hc' & Hr').
    congruence. }
  assert (Hres : records_result j r).
  { eapply Forall2_lookup_lr; eauto. }
  rewrite (drain_as_run evs _ _ Hs1). cbn [the_os].
  destruct (work_run_files (heap (fst (invoke_all calls w))) jobs evs
              (set_executor (mkExecutor jobs false) self,
               the_os (fst (invoke_all calls w))) i j ev)
    as (data & Hd & Ho & Hst); try assumption; try reflexivity.
  - congruence.
  - simpl in Hd, Ho. exists data. rewrite <- Hname. split; [exact Hd|].
    split; [exact Ho|]. intros l ->. simpl in Hres. rewrite Hst, Hres. reflexivity.
Qed.

Lemma calls_end_in_numbered_files_witness :
  let ok := mkNode "launch_browser_node" (fun state => ret state) in
  let calls := [(Some "launch_browser", ok, 0%nat); (None, Sample.failing, 0%nat)] in
  let ev1 := mkEnv "120001" "2024-01-01T12:00:01" NoFault in
  let ev2 := mkEnv "120002" "2024-01-01T12:00:02" NoFault in
  let w := Sample.dict_world (Some Sample.saver) in
  let w1 := fst (invoke_all calls w) in
  let w2 := drain [ev1; ev2] w1 in
  exists data,
    disk (the_os w2) !! "states/wf_r/002_navigate_page_ERROR_120002.json"
    = Some (Complete data)
    /\ metadata_order data = Some 2.
Proof.
  intros ok calls ev1 ev2 w.
  destruct (calls_end_in_numbered_files calls w Sample.saver [ev1; ev2] 1
              (None, Sample.failing, 0%nat) (Raise Sample.boom) ev2)
    as (data & Hd & Ho & _); try reflexivity.
  - repeat constructor.
  - exists data. split; [exact Hd | exact Ho].
Defined.
